(** * protsupport: geometry utilities and the structured transformer

    A shallow embedding of [protsupport/utils/geometry.py] and
    [protsupport/modules/protein_transformer.py].

    Numbers.  The Python code computes in IEEE floating point; here a
    number is a real ([R]) and every operation is the exact one, so the
    results below are about the arithmetic the code spells out, not about
    its rounding.

    [nan] and [inf] are not numbers here: where numpy divides by zero or
    takes the root of a negative number, the model has the value the
    Standard Library gives to [x / 0] and to [sqrt] there, and no result
    below rests on such a value.

    Arrays.  A one-dimensional array is a [list R], a two-dimensional one
    the list of its rows, a three-dimensional one a list of matrices.
    An index that Python rejects ([IndexError], a failed unpacking, a
    shape that [view] refuses) is a [None], and so is a call of a method
    that the class of the value does not have ([AttributeError]).  Elementwise operations
    ([u - v], [a + b], ...) are written for two operands of one shape, as
    at every call in the two files; the broadcasting of unequal shapes is
    not modelled. *)

From Stdlib Require Import Reals Lra Lia List Arith Bool ZArith.
From Stdlib Require Import RNsatz.
Import ListNotations.

Open Scope R_scope.

(** ** A small error monad for the exceptions of the Python code *)

Definition obind {A B : Type} (m : option A) (f : A -> option B) : option B :=
  match m with
  | Some a => f a
  | None => None
  end.

Declare Scope error_scope.
Delimit Scope error_scope with error.

Notation "x <- m ;; k" := (obind m (fun x => k))
  (at level 61, m at next level, right associativity) : error_scope.
Notation "' p <- m ;; k" := (obind m (fun x => match x with p => k end))
  (at level 61, p pattern, m at next level, right associativity) : error_scope.

Open Scope error_scope.

Fixpoint mapM {A B : Type} (f : A -> option B) (l : list A) : option (list B) :=
  match l with
  | [] => Some []
  | a :: t => b <- f a ;; bs <- mapM f t ;; Some (b :: bs)
  end.

(** ** numpy arrays *)

Module Np.

Definition vector := list R.
Definition matrix := list (list R).

Fixpoint map2 {A B C : Type} (f : A -> B -> C) (l : list A) (l' : list B)
  : list C :=
  match l, l' with
  | a :: t, b :: t' => f a b :: map2 f t t'
  | _, _ => []
  end.

Definition sum (v : vector) : R := fold_right Rplus 0 v.

(** [u.dot(v)] for two one-dimensional arrays. *)
Definition dot (u v : vector) : R := sum (map2 Rmult u v).

(** [np.linalg.norm(v)]. *)
Definition norm (v : vector) : R := sqrt (sum (map (fun x => x * x) v)).

(** [v / s], [s * v], [-v], [u - v], [u + v] on one-dimensional arrays. *)
Definition vdiv (v : vector) (s : R) : vector := map (fun x => x / s) v.
Definition vscale (s : R) (v : vector) : vector := map (Rmult s) v.
Definition vneg (v : vector) : vector := map Ropp v.
Definition vsub : vector -> vector -> vector := map2 Rminus.
Definition vadd : vector -> vector -> vector := map2 Rplus.

(** [shape r c m]: the matrix [m] has [r] rows of [c] entries each. *)
Definition shape (r c : nat) (m : matrix) : Prop :=
  length m = r /\ Forall (fun row => length row = c) m.

(** Column [j] of a matrix. *)
Definition col (m : matrix) (j : nat) : vector := map (fun r => nth j r 0) m.

(** Number of columns: the length of the first row. *)
Definition ncols (m : matrix) : nat :=
  match m with
  | [] => O
  | r :: _ => length r
  end.

(** [m.T]. *)
Definition transpose (m : matrix) : matrix := map (col m) (seq 0 (ncols m)).

(** [a @ b] for two matrices, and for a matrix and a vector. *)
Definition matmul (a b : matrix) : matrix :=
  map (fun r => map (dot r) (transpose b)) a.
Definition matvec (m : matrix) (v : vector) : vector := map (fun r => dot r v) m.

Definition madd : matrix -> matrix -> matrix := map2 vadd.
Definition msub : matrix -> matrix -> matrix := map2 vsub.
Definition mscale (s : R) (m : matrix) : matrix := map (vscale s) m.

(** [np.eye(n)]. *)
Definition eye (n : nat) : matrix :=
  map (fun i => map (fun j => if Nat.eqb i j then 1 else 0) (seq 0 n)) (seq 0 n).

(** [np.cross(u, v)] of two vectors of three components.  numpy also
    accepts vectors of two components and then returns one number, on
    which a second [np.cross] raises; that case is left out, and [cross]
    is [None] on it. *)
Definition cross (u v : vector) : option vector :=
  match u, v with
  | [u0; u1; u2], [v0; v1; v2] =>
      Some [u1 * v2 - u2 * v1; u2 * v0 - u0 * v2; u0 * v1 - u1 * v0]
  | _, _ => None
  end.

(** [np.arctan2(y, x)]: the angle of the point (x, y), in (-pi, pi]. *)
Definition arctan2 (y x : R) : R :=
  if Rlt_dec 0 x then atan (y / x)
  else if Rlt_dec x 0 then
    if Rle_dec 0 y then atan (y / x) + PI else atan (y / x) - PI
  else if Rlt_dec 0 y then PI / 2
  else if Rlt_dec y 0 then - (PI / 2)
  else 0.

End Np.

(** ** geometry.py *)

Module Geometry.
Import Np.

(** The constant [1e-6]. *)
Definition eps : R := 1 / 1000000.

(** An argument of [matrix_to_quaternion] and [relative_orientation] is a
    numpy array or a torch tensor; the code asks which ([isinstance]) and
    of how many axes ([dim]). *)
Inductive array : Type :=
  | Nd1 (v : vector)
  | Nd2 (m : matrix)
  | Th1 (v : vector)
  | Th2 (m : matrix)
  | Th3 (t : list matrix).

(** [isinstance(a, torch.Tensor)] *)
Definition is_tensor (a : array) : bool :=
  match a with
  | Nd1 _ | Nd2 _ => false
  | Th1 _ | Th2 _ | Th3 _ => true
  end.

(** [a.dim()] *)
Definition dim (a : array) : nat :=
  match a with
  | Nd1 _ | Th1 _ => 1
  | Nd2 _ | Th2 _ => 2
  | Th3 _ => 3
  end.

(** [m[i, j]] *)
Definition entry (m : matrix) (i j : nat) : option R :=
  r <- nth_error m i ;; nth_error r j.

(** [x < y] as a Python boolean. *)
Definition Rltb (x y : R) : bool := if Rlt_dec x y then true else false.

(** [x == y] as a Python boolean. *)
Definition Reqb (x y : R) : bool := if Req_dec_T x y then true else false.

(** Python's [a % m] on numbers: the remainder of the floored division. *)
Definition pymod (a m : R) : R := a - m * IZR (Int_part (a / m)).

(** [np.linalg.norm(m, axis=0)]: the norm of every column. *)
Definition norm_axis0 (m : matrix) : vector := map norm (transpose m).

(** [compute_dihedral_angle(a, b, c)] *)
Definition compute_dihedral_angle (a b c : vector) : option R :=
  c1 <- cross a b ;;
  c2 <- cross b c ;;
  let b0 := vdiv b (norm b) in
  c12 <- cross c1 c2 ;;
  Some (arctan2 (dot c12 b0) (dot c1 c2)).

(** [_assign_psea_aux(distances, dihedral, angle,
                      distance_spec, dihedral_spec, angle_spec)] *)
Definition _assign_psea_aux (distances : vector) (dihedral angle : R)
    (distance_spec : list (R * R)) (dihedral_spec angle_spec : R * R)
  : option bool :=
  let good := true in
  good <- fold_left
    (fun (acc : option bool) (idx : nat) =>
       good <- acc ;;
       '(target, area) <- nth_error distance_spec idx ;;
       d <- nth_error distances (idx + 2) ;;
       let fits := Rltb (target - area) d && Rltb d (target + area) in
       Some (good && fits))
    (seq 0 3) (Some good) ;;
  let '(target, area) := dihedral_spec in
  let left := pymod ((target - area) + 180) 360 / 180 * PI in
  let right := pymod ((target + area) + 180) 360 / 180 * PI in
  let good := good && (Rltb left dihedral && Rltb dihedral right) in
  let '(target, area) := dihedral_spec in
  let left := pymod ((target - area) + 180) 360 / 180 * PI in
  let right := pymod ((target + area) + 180) 360 / 180 * PI in
  let good := good && (Rltb left dihedral && Rltb dihedral right) in
  Some good.

(** [vector_angle(v1, v2)] *)
Definition vector_angle (v1 v2 : vector) : option R :=
  let v1 := vdiv v1 (norm v1) in
  let v2 := vdiv v2 (norm v2) in
  let dot := dot v1 v2 in
  c <- Np.cross v1 v2 ;;
  let cross := norm c in
  Some (arctan2 cross dot).

(** [m[:, 1:] - m[:, :-1]] *)
Definition diff_next (m : matrix) : matrix :=
  map (fun r => vsub (tl r) (removelast r)) m.

(** The three secondary-structure classes, as the arrays the code returns. *)
Definition helix : list Z := [1; 0; 0]%Z.
Definition sheet : list Z := [0; 1; 0]%Z.
Definition coil : list Z := [0; 0; 1]%Z.

(** Lines 33 to 55 of [assign_psea]: the classification, once the
    distances, the dihedral and the bond angle have been measured. *)
Definition psea_classify (distances : vector) (dihedral angle : R)
  : option (list Z) :=
  let helix_angle := (89, 12) in
  let sheet_angle := (124, 14) in
  let helix_dihedral := (50, 20) in
  let sheet_dihedral := (-170, 45) in
  let helix_distances := [(5.5, 0.5); (5.3, 0.5); (6.4, 0.6)] in
  let sheet_distances := [(6.7, 0.6); (9.9, 0.9); (12.4, 1.1)] in
  is_helix <- _assign_psea_aux distances dihedral angle
                helix_distances helix_dihedral helix_angle ;;
  if (is_helix : bool) then Some helix
  else
    is_sheet <- _assign_psea_aux distances dihedral angle
                  sheet_distances sheet_dihedral sheet_angle ;;
    if (is_sheet : bool) then Some sheet else Some coil.

(** Lines 28 to 31 of [assign_psea]: the measurements.  The call
    [compute_dihedral_angle( *offsets[:-1])] passes the rows of
    [offsets[:-1]] as the arguments, so there must be exactly three. *)
Definition psea_measure (positions : matrix) : option (vector * R * R) :=
  let offsets := diff_next positions in
  let distances :=
    norm_axis0 (map (fun r => map (fun x => hd 0 r - x) r) positions) in
  dihedral <- match removelast offsets with
              | [a; b; c] => compute_dihedral_angle a b c
              | _ => None
              end ;;
  o0 <- nth_error offsets 0 ;;
  o1 <- nth_error offsets 1 ;;
  angle <- vector_angle (vneg o0) o1 ;;
  Some (distances, dihedral, angle).

(** [assign_psea(positions)] *)
Definition assign_psea (positions : matrix) : option (list Z) :=
  '(distances, dihedral, angle) <- psea_measure positions ;;
  psea_classify distances dihedral angle.

(** [compute_rotation_matrix(axis, angle)] *)
Definition compute_rotation_matrix (axis : vector) (angle : R) : option matrix :=
  let axis := vdiv axis (norm axis) in
  a2 <- nth_error axis 2 ;;
  a1 <- nth_error axis 1 ;;
  a0 <- nth_error axis 0 ;;
  let matrix := [[0; - a2; a1]; [0; 0; - a0]; [0; 0; 0]] in
  let matrix := msub matrix (transpose matrix) in
  let rot := madd (madd (eye 3) (mscale (sin angle) matrix))
                  (mscale (1 - cos angle) (matmul matrix matrix)) in
  Some rot.

(** [compute_rotation(vector, axis, angle)] *)
Definition compute_rotation (v axis : vector) (angle : R) : option vector :=
  rot <- compute_rotation_matrix axis angle ;;
  Some (matvec rot v).

(** [m / (np.linalg.norm(m, axis=0) + 1e-6)]: every column divided by its
    norm plus [eps]. *)
Definition normalise_columns (m : matrix) : matrix :=
  let n := map (fun d => d + eps) (norm_axis0 m) in
  map (fun r => map2 Rdiv r n) m.

(** [np.cross(a.T, b.T).T] for two arrays of three rows: the cross product
    of every column of [a] with the same column of [b]. *)
Definition cross_columns (a b : matrix) : option matrix :=
  match a, b with
  | [a0; a1; a2], [b0; b1; b2] =>
      Some [vsub (map2 Rmult a1 b2) (map2 Rmult a2 b1);
            vsub (map2 Rmult a2 b0) (map2 Rmult a0 b2);
            vsub (map2 Rmult a0 b1) (map2 Rmult a1 b0)]
  | _, _ => None
  end.

(** [np.concatenate((a, b, c), axis=1)] *)
Fixpoint concat_axis1 (a b c : matrix) : matrix :=
  match a, b, c with
  | ra :: a', rb :: b', rc :: c' => (ra ++ rb ++ rc) :: concat_axis1 a' b' c'
  | _, _, _ => []
  end.

(** [orientation(positions)], for [positions] of shape (3, n); the result
    has shape (3, 3, n).  The message printed when a [nan] appears is not
    part of the model. *)
Definition orientation (positions : matrix) : option (list matrix) :=
  let u := diff_next positions in
  let u := normalise_columns u in
  let b := msub (map (@removelast R) u) (map (@tl R) u) in
  let b := normalise_columns b in
  n <- cross_columns (map (@removelast R) u) (map (@tl R) u) ;;
  let n := normalise_columns n in
  bxn <- cross_columns b n ;;
  let b_edge := [[1]; [0]; [0]] in
  let n_edge := [[0]; [1]; [0]] in
  let bxn_edge := [[0]; [0]; [1]] in
  let edge := b_edge ++ n_edge ++ bxn_edge in
  let result := b ++ n ++ bxn in
  let result := concat_axis1 edge result edge in
  match result with
  | [r0; r1; r2; r3; r4; r5; r6; r7; r8] =>
      Some [[r0; r1; r2]; [r3; r4; r5]; [r6; r7; r8]]
  | _ => None
  end.

(** The numpy branch of [matrix_to_quaternion]. *)
Definition matrix_to_quaternion_np (m : matrix) : option vector :=
  m00 <- entry m 0 0 ;; m11 <- entry m 1 1 ;; m22 <- entry m 2 2 ;;
  let w := sqrt (1 + m00 + m11 + m22) / 2 in
  let w4 := 4 * w in
  m21 <- entry m 2 1 ;; m12 <- entry m 1 2 ;;
  let x := (m21 - m12) / w4 in
  m02 <- entry m 0 2 ;; m20 <- entry m 2 0 ;;
  let y := (m02 - m20) / w4 in
  m10 <- entry m 1 0 ;; m01 <- entry m 0 1 ;;
  let z := (m10 - m01) / w4 in
  Some [w; x; y; z].

(** The torch branch of [matrix_to_quaternion], for one matrix of the
    batch. *)
Definition matrix_to_quaternion_th (m : matrix) : option vector :=
  m00 <- entry m 0 0 ;; m11 <- entry m 1 1 ;; m22 <- entry m 2 2 ;;
  let w := sqrt (1 + m00 + m11 + m22) / 2 in
  let w4 := 4 * w in
  m21 <- entry m 2 1 ;; m12 <- entry m 1 2 ;;
  let x := (m21 - m12) / (w4 + eps) in
  m02 <- entry m 0 2 ;; m20 <- entry m 2 0 ;;
  let y := (m02 - m20) / (w4 + eps) in
  m10 <- entry m 1 0 ;; m01 <- entry m 0 1 ;;
  let z := (m10 - m01) / (w4 + eps) in
  Some [w; x; y; z].

(** [matrix_to_quaternion(matrix)]: a batch of matrices for a tensor, one
    matrix for an array. *)
Definition matrix_to_quaternion (m : array) : option array :=
  if is_tensor m then
    match m with
    | Th3 t => q <- mapM matrix_to_quaternion_th t ;; Some (Th2 q)
    | _ => None
    end
  else
    match m with
    | Nd2 m => q <- matrix_to_quaternion_np m ;; Some (Nd1 q)
    | _ => None
    end.

(** [a[:, mask] = 0] *)
Definition zero_columns (a : matrix) (mask : list bool) : matrix :=
  map (fun r => map2 (fun v (b : bool) => if b then 0 else v) r mask) a.

(** [a[mask] = 0] *)
Definition zero_rows (a : matrix) (mask : list bool) : matrix :=
  map2 (fun r (b : bool) => if b then map (fun _ => 0) r else r) a mask.

(** [_np_relative_orientation(x, y, x_o, y_o)] *)
Definition _np_relative_orientation (x y x_o y_o : matrix)
  : option (array * array * array) :=
  let offset := msub y x in
  let distance := norm_axis0 offset in
  let direction :=
    matmul (transpose x_o) (map (fun r => map2 Rdiv r distance) offset) in
  let direction := zero_columns direction (map (fun d => Reqb d 0) distance) in
  rotation <- matrix_to_quaternion (Nd2 (matmul (transpose x_o) y_o)) ;;
  Some (Nd1 distance, Nd2 direction, rotation).

(** [torch.norm(offset, dim=1, keepdim=True)] *)
Definition norm_dim1 (m : matrix) : matrix := map (fun r => [norm r]) m.

(** [offset / (distance + 1e-6)] for a distance of shape (n, 1). *)
Definition unit_rows (offset distance : matrix) : matrix :=
  map2 (fun r d => vdiv r (hd 0 d + eps)) offset distance.

(** [(distance == 0).view(-1)] *)
Definition is_zero (distance : matrix) : list bool :=
  map (fun d => Reqb d 0) (concat distance).

(** [_torch_neighbourhood_relative_orientation(x, y, x_o, y_o)]; the
    messages printed for [nan] are not part of the model. *)
Definition _torch_neighbourhood_relative_orientation
    (x : vector) (y x_o : matrix) (y_o : list matrix)
  : option (array * array * array) :=
  let offset := map (fun r => vsub r x) y in
  let distance := norm_dim1 offset in
  let direction := matmul (unit_rows offset distance) x_o in
  let direction := zero_rows direction (is_zero distance) in
  rotation <- matrix_to_quaternion (Th3 (map (matmul x_o) y_o)) ;;
  Some (Th2 distance, Th2 direction, rotation).

(** [t.squeeze()] for [t] of shape (n, 3, 1), given without its last axis:
    the batch axis goes too when [n] is 1. *)
Definition squeeze (t : matrix) : array :=
  match t with
  | [r] => Th1 r
  | _ => Th2 t
  end.

(** [_torch_batch_relative_orientation(x, y, x_o, y_o)] *)
Definition _torch_batch_relative_orientation
    (x y : matrix) (x_o y_o : list matrix)
  : option (array * array * array) :=
  let offset := msub y x in
  let distance := norm_dim1 offset in
  let direction := map2 matvec x_o (unit_rows offset distance) in
  let direction := zero_rows direction (is_zero distance) in
  rotation <- matrix_to_quaternion (Th3 (map2 matmul x_o y_o)) ;;
  Some (Th2 distance, squeeze direction, rotation).

(** [relative_orientation(x, y, x_o, y_o)].  The three helpers are written
    for arguments of fixed numbers of axes; any other combination is
    rejected here. *)
Definition relative_orientation (x y x_o y_o : array)
  : option (array * array * array) :=
  if is_tensor x then
    if negb (Nat.eqb (dim x) (dim y)) then
      match x, y, x_o, y_o with
      | Th1 x, Th2 y, Th2 x_o, Th3 y_o =>
          _torch_neighbourhood_relative_orientation x y x_o y_o
      | _, _, _, _ => None
      end
    else
      match x, y, x_o, y_o with
      | Th2 x, Th2 y, Th3 x_o, Th3 y_o =>
          _torch_batch_relative_orientation x y x_o y_o
      | _, _, _, _ => None
      end
  else
    match x, y, x_o, y_o with
    | Nd2 x, Nd2 y, Nd2 x_o, Nd2 y_o => _np_relative_orientation x y x_o y_o
    | _, _, _, _ => None
    end.

End Geometry.

(** ** torch: the random generator, tensors and [nn.Linear] *)

Module Torch.
Import Np.

(** A computation that may draw from torch's random number generator
    (parameter initialisation, dropout) and may raise: it takes the state
    of the generator and returns a value with the next state, or nothing. *)
Definition M (rng A : Type) : Type := rng -> option (A * rng).

Definition ret {rng A : Type} (a : A) : M rng A := fun g => Some (a, g).

Definition bind {rng A B : Type} (m : M rng A) (f : A -> M rng B) : M rng B :=
  fun g =>
    match m g with
    | Some (a, g') => f a g'
    | None => None
    end.

(** A computation that needs no generator. *)
Definition lift {rng A : Type} (o : option A) : M rng A :=
  fun g =>
    match o with
    | Some a => Some (a, g)
    | None => None
    end.

(** [[m for _ in range(n)]] *)
Fixpoint replicateM {rng A : Type} (n : nat) (m : M rng A) : M rng (list A) :=
  match n with
  | O => ret []
  | S n' => bind m (fun a => bind (replicateM n' m) (fun rest => ret (a :: rest)))
  end.

(** [n] consecutive pieces of [k] entries. *)
Fixpoint chunk {A : Type} (n k : nat) (l : list A) : list (list A) :=
  match n with
  | O => []
  | S n' => firstn k l :: chunk n' k (skipn k l)
  end.

(** [t.view(n, -1)] of the entries [flat] of a contiguous tensor. *)
Definition view_rows (n : nat) (flat : vector) : option matrix :=
  if Nat.eqb n 0 then None
  else if Nat.eqb (length flat mod n) 0
       then Some (chunk n (length flat / n) flat)
       else None.

(** [t.view(n, a, b)] of a two-dimensional tensor. *)
Definition view3 (n a b : nat) (t : matrix) : option (list matrix) :=
  let flat := concat t in
  if Nat.eqb (length flat) (n * a * b)
  then Some (map (chunk a b) (chunk n (a * b) flat))
  else None.

(** [t.roll(1, dims=0)] *)
Definition roll1 {A : Type} (l : list A) : list A :=
  match l with
  | [] => []
  | a :: _ => last l a :: removelast l
  end.

(** [t[0] = 0] on a two-dimensional tensor. *)
Definition zero_first (t : matrix) : option matrix :=
  match t with
  | [] => None
  | r :: rest => Some (map (fun _ => 0) r :: rest)
  end.

(** [torch.cat(ts, dim=1)]: the tensors must have the same number of
    rows. *)
Definition cat1 (a b : matrix) : option matrix :=
  if Nat.eqb (length a) (length b) then Some (map2 (@app R) a b) else None.

Definition cat_dim1 (ts : list matrix) : option matrix :=
  match ts with
  | [] => None
  | t :: rest => fold_left (fun acc u => a <- acc ;; cat1 a u) rest (Some t)
  end.

(** [t[:, j]] *)
Definition column (t : matrix) (j : nat) : option vector :=
  mapM (fun r => nth_error r j) t.

(** [u * v] on one-dimensional tensors of one length. *)
Definition vmul (u v : vector) : option vector :=
  if Nat.eqb (length u) (length v) then Some (map2 Rmult u v) else None.

(** [u + v] on one-dimensional tensors of one length. *)
Definition vplus (u v : vector) : option vector :=
  if Nat.eqb (length u) (length v) then Some (map2 Rplus u v) else None.

(** [t[:, j] = t[:, j] + v.unsqueeze(-1)] on a three-dimensional tensor:
    entry [n] of [v] is added along row [j] of the matrix [n]. *)
Definition add_to_row (j : nat) (t : list matrix) (v : vector)
  : option (list matrix) :=
  if Nat.eqb (length t) (length v) then
    mapM (fun '(m, x) =>
            r <- nth_error m j ;;
            Some (firstn j m ++ map (fun y => y + x) r :: skipn (S j) m))
         (combine t v)
  else None.

(** [t[:, :, idx]] *)
Definition slice_last (t : list matrix) (idx : nat) : matrix :=
  map (map (fun r => nth idx r 0)) t.

(** [t.permute(2, 0, 1)] *)
Definition permute_201 (t : list matrix) : list matrix :=
  let n := match t with
           | (r :: _) :: _ => length r
           | _ => O
           end in
  map (fun k => map (map (fun r => nth k r 0)) t) (seq 0 n).

(** A three-dimensional array with its class: a [numpy.ndarray] or a
    [torch.Tensor]. *)
Inductive array3 : Type :=
| Nd3 (a : list matrix)
| Tn3 (t : list matrix).

(** [a.permute(2, 0, 1)] on a value of either class.  [permute] is a method
    of [torch.Tensor]; a [numpy.ndarray] has no attribute of that name and
    the call raises [AttributeError]. *)
Definition permute (a : array3) : option (list matrix) :=
  match a with
  | Tn3 t => Some (permute_201 t)
  | Nd3 _ => None
  end.

(** [x.sigmoid()] and [v.softmax(dim=-1)] *)
Definition sigmoid (x : R) : R := 1 / (1 + exp (- x)).

Definition softmax (v : vector) : vector :=
  let e := map exp v in
  map (fun x => x / sum e) e.

(** [nn.Linear(in_features, out_features)]: [weight o i] and [bias o] are
    the entries of its two parameters. *)
Record Linear : Type := {
  in_features : nat;
  out_features : nat;
  weight : nat -> nat -> R;
  bias : nat -> R
}.

(** One row through the layer: [x A^T + b]. *)
Definition Linear_row (l : Linear) (x : vector) : vector :=
  map (fun o => dot x (map (weight l o) (seq 0 (in_features l))) + bias l o)
      (seq 0 (out_features l)).

(** [l(x)] on a two-dimensional tensor; the rows must have [in_features]
    entries. *)
Definition Linear_forward (l : Linear) (x : matrix) : option matrix :=
  mapM (fun r => if Nat.eqb (length r) (in_features l)
                 then Some (Linear_row l r) else None) x.

End Torch.

Declare Scope torch_scope.
Delimit Scope torch_scope with torch.

Notation "x <- m ;; k" := (Torch.bind m (fun x => k))
  (at level 61, m at next level, right associativity) : torch_scope.
Notation "' p <- m ;; k" := (Torch.bind m (fun x => match x with p => k end))
  (at level 61, p pattern, m at next level, right associativity) : torch_scope.

(** ** protein_transformer.py *)

Module Transformer.
Import Np Geometry Torch.

(** The forward function of a module on feature tensors, and of an
    attention module, [attention(query, key, structure)]. *)
Definition module (rng : Type) : Type := matrix -> M rng matrix.

Definition attention_module (rng orientation_structure : Type) : Type :=
  matrix -> matrix -> orientation_structure -> M rng matrix.

(** What the two files import and use without defining it.

    Types: the state of torch's random number generator; the graph
    structure given to [forward], the structures built from it and what
    [message] returns; the layers a [normalization] wraps; the activation
    function; the position lookup.

    Constructors and methods, each of which may draw from the generator
    and may raise:
    - [torchsupport.modules.basic.MLP(in_size, out_size, hidden_size=,
      depth=, activation=, batch_norm=, normalization=)];
    - [nn.Dropout(p)] and [nn.LayerNorm(size)];
    - the initial weight and bias of [nn.Linear(in_features, out_features)];
    - [protsupport.modules.anglespace]: [AngleProject(in_size, out_size)]
      and [PositionLookup(fragment_size=)];
    - [protsupport.modules.structures]:
      [FlexibleRelativeStructure(structure, rbf)], its method
      [message(data, other)], and
      [FlexibleOrientationStructure(structure, relative_data)]. *)
Class Library : Type := {
  rng : Type;
  structure : Type;
  relative_structure : Type;
  relative_data : Type;
  message_edges : Type;
  message_mask : Type;
  orientation_structure : Type;
  layer : Type;
  activation_fn : Type;
  position_lookup : Type;
  MLP : nat -> nat -> nat -> nat -> activation_fn -> bool ->
        (layer -> layer) -> M rng (module rng);
  Dropout : R -> M rng (module rng);
  LayerNorm : nat -> M rng (module rng);
  Linear_parameters : nat -> nat -> M rng ((nat -> nat -> R) * (nat -> R));
  AngleProject : nat -> nat -> M rng (module rng);
  PositionLookup : nat -> M rng position_lookup;
  FlexibleRelativeStructure : structure -> R * R * Z -> M rng relative_structure;
  message : relative_structure -> matrix -> matrix ->
            M rng (relative_data * message_edges * message_mask);
  FlexibleOrientationStructure :
    structure -> relative_data -> M rng orientation_structure
}.

Section Model.
Context {L : Library}.
Local Open Scope torch_scope.

(** The [connected] argument: a constructor
    [connected(size, distance_size, attention_size, heads, normalization)]. *)
Definition connected_fn : Type :=
  nat -> Z -> nat -> nat -> (layer -> layer) ->
  M rng (attention_module rng orientation_structure).

(** [nn.Linear(in_features, out_features)] *)
Definition nn_Linear (i o : nat) : M rng Linear :=
  '(w, b) <- Linear_parameters i o ;;
  ret {| in_features := i; out_features := o; weight := w; bias := b |}.

(** *** StructuredTransformerEncoderBlock *)

Record StructuredTransformerEncoderBlock : Type := {
  blk_pre_norm : bool;
  blk_batch_norm : bool;
  blk_attention : attention_module rng orientation_structure;
  blk_local : module rng;
  blk_activation : activation_fn;
  blk_dropout : module rng;
  blk_bn : module rng;
  blk_local_bn : module rng
}.

(** [StructuredTransformerEncoderBlock.__init__]; [dropout] is a rate or
    [None]. *)
Definition StructuredTransformerEncoderBlock_init
    (size : nat) (distance_size : Z) (attention_size heads hidden_size
     mlp_depth : nat) (activation : activation_fn) (batch_norm : bool)
    (dropout : option R) (pre_norm : bool) (normalization : layer -> layer)
    (connected : connected_fn)
  : M rng StructuredTransformerEncoderBlock :=
  attention <- connected size distance_size attention_size heads normalization ;;
  local <- MLP size size hidden_size mlp_depth activation false normalization ;;
  let self_dropout : module rng := fun x => ret x in
  self_dropout <- match dropout with
                  | Some p => Dropout p
                  | None => ret self_dropout
                  end ;;
  let self_bn : module rng := fun x => ret x in
  let self_local_bn : module rng := fun x => ret x in
  '(self_bn, self_local_bn) <-
     (if batch_norm then
        bn <- LayerNorm size ;;
        local_bn <- LayerNorm size ;;
        ret (bn, local_bn)
      else ret (self_bn, self_local_bn)) ;;
  ret {| blk_pre_norm := pre_norm;
         blk_batch_norm := batch_norm;
         blk_attention := attention;
         blk_local := local;
         blk_activation := activation;
         blk_dropout := self_dropout;
         blk_bn := self_bn;
         blk_local_bn := self_local_bn |}.

(** [StructuredTransformerEncoderBlock.forward(features, structure)] *)
Definition StructuredTransformerEncoderBlock_forward
    (self : StructuredTransformerEncoderBlock) (features : matrix)
    (structure : orientation_structure) : M rng matrix :=
  if blk_pre_norm self then
    normed <- blk_bn self features ;;
    a <- blk_attention self normed normed structure ;;
    d <- blk_dropout self a ;;
    let out := madd features d in
    n <- blk_local_bn self out ;;
    l <- blk_local self n ;;
    d <- blk_dropout self l ;;
    let out := madd out d in
    ret out
  else
    a <- blk_attention self features features structure ;;
    d <- blk_dropout self a ;;
    let out := madd features d in
    out <- blk_bn self out ;;
    l <- blk_local self out ;;
    d <- blk_dropout self l ;;
    let out := madd out d in
    out <- blk_local_bn self out ;;
    ret out.

(** *** StructuredTransformerEncoder *)

Record StructuredTransformerEncoder : Type := {
  enc_preprocessor : Linear;
  enc_blocks : list StructuredTransformerEncoderBlock
}.

(** [StructuredTransformerEncoder.__init__] *)
Definition StructuredTransformerEncoder_init
    (in_size size : nat) (distance_size : Z) (attention_size heads
     hidden_size depth mlp_depth : nat) (dropout : option R)
    (activation : activation_fn) (batch_norm pre_norm : bool)
    (normalization : layer -> layer) (connected : connected_fn)
  : M rng StructuredTransformerEncoder :=
  preprocessor <- nn_Linear in_size size ;;
  blocks <- replicateM depth
              (StructuredTransformerEncoderBlock_init
                 size distance_size attention_size heads hidden_size
                 mlp_depth activation batch_norm dropout pre_norm
                 normalization connected) ;;
  ret {| enc_preprocessor := preprocessor; enc_blocks := blocks |}.

(** The loop [for block in self.blocks: out = block(out, structure)]. *)
Fixpoint run_blocks (blocks : list StructuredTransformerEncoderBlock)
    (out : matrix) (structure : orientation_structure) : M rng matrix :=
  match blocks with
  | [] => ret out
  | block :: rest =>
      out <- StructuredTransformerEncoderBlock_forward block out structure ;;
      run_blocks rest out structure
  end.

(** [StructuredTransformerEncoder.forward(features, structure)] *)
Definition StructuredTransformerEncoder_forward
    (self : StructuredTransformerEncoder) (features : matrix)
    (structure : orientation_structure) : M rng matrix :=
  out <- lift (Linear_forward (enc_preprocessor self) features) ;;
  run_blocks (enc_blocks self) out structure.

(** *** ProteinTransformer *)

Record ProteinTransformer : Type := {
  pt_encoder : StructuredTransformerEncoder;
  pt_mix : nat;
  pt_angles : bool;
  pt_lookup : position_lookup;
  pt_conditional : bool;
  pt_neighbours : nat;
  pt_activation : activation_fn;
  pt_rbf : R * R * Z;
  pt_preprocess : Linear;
  pt_mean : module rng;
  pt_log_concentration : Linear;
  pt_weights : Linear;
  pt_factor : Linear
}.

(** [ProteinTransformer.__init__] *)
Definition ProteinTransformer_init
    (in_size size : nat) (distance_size : Z) (mix attention_size heads
     hidden_size mlp_depth depth : nat) (max_distance : R)
    (distance_kernels : Z) (neighbours : nat) (activation : activation_fn)
    (batch_norm conditional angles : bool) (dropout : option R)
    (connected : connected_fn) (normalization : layer -> layer)
  : M rng ProteinTransformer :=
  let distance_size := (distance_size + distance_kernels - 1)%Z in
  encoder <- StructuredTransformerEncoder_init
               size size distance_size attention_size heads hidden_size
               depth mlp_depth (Some 0.1) activation batch_norm true
               (fun x => x) connected ;;
  lookup <- PositionLookup 10 ;;
  preprocess <- nn_Linear 6 size ;;
  mean <- AngleProject size (3 * mix) ;;
  log_concentration <- nn_Linear size (3 * mix) ;;
  weights <- nn_Linear size mix ;;
  factor <- nn_Linear size 3 ;;
  ret {| pt_encoder := encoder;
         pt_mix := mix;
         pt_angles := angles;
         pt_lookup := lookup;
         pt_conditional := conditional;
         pt_neighbours := neighbours;
         pt_activation := activation;
         pt_rbf := (0, max_distance, distance_kernels);
         pt_preprocess := preprocess;
         pt_mean := mean;
         pt_log_concentration := log_concentration;
         pt_weights := weights;
         pt_factor := factor |}.

(** [ProteinTransformer.orientations(tertiary)].  [orientation] is the
    numpy code of geometry.py: what it returns comes out of
    [np.concatenate] and [reshape] and is a [numpy.ndarray], and it is on
    that array that line 115 calls [permute]. *)
Definition orientations (self : ProteinTransformer) (tertiary : list matrix)
  : option matrix :=
  (pos <- mapM (fun t => nth_error t 1) tertiary ;;
   ors <- orientation (transpose pos) ;;
   ors <- permute (Nd3 ors) ;;
   view_rows (length tertiary) (concat (concat ors)))%error.

(** Lines 120 to 125 of [ProteinTransformer.forward]: the features made
    from the angles. *)
Definition angle_features (self : ProteinTransformer) (angles : matrix)
  : option matrix :=
  (let previous_angles := roll1 angles in
   previous_angles <- zero_first previous_angles ;;
   let asin := map (map sin) previous_angles in
   let acos := map (map cos) previous_angles in
   afeat <- cat_dim1 [asin; acos] ;;
   Linear_forward (pt_preprocess self) afeat)%error.

(** Lines 126 to 136: the structure given to the encoder.  What the code
    prints is not part of the model. *)
Definition orientation_features (self : ProteinTransformer)
    (tertiary : list matrix) (structure : structure)
  : M rng orientation_structure :=
  ors <- lift (orientations self tertiary) ;;
  pos <- lift (mapM (fun t => nth_error t 1) tertiary) ;;
  let inds := map (fun i => [INR i]) (seq 0 (length pos)) in
  distances <- lift (cat_dim1 [pos; ors; inds]) ;;
  distance_data <- FlexibleRelativeStructure structure (pt_rbf self) ;;
  '(relative_data, _, _) <- message distance_data distances (roll1 distances) ;;
  FlexibleOrientationStructure structure relative_data.

(** Lines 139 to 153: the heads on the encoding.  The 1-tuple
    [((weights, parameters),)] is given as the pair it holds. *)
Definition mixture_heads (self : ProteinTransformer) (angles encoding : matrix)
  : M rng (matrix * list (matrix * matrix)) :=
  let n := length encoding in
  mean <- pt_mean self encoding ;;
  mean <- lift (view3 n 3 (pt_mix self) mean) ;;
  factor <- lift (Linear_forward (pt_factor self) encoding) ;;
  mean <- lift (f0 <- column factor 0 ;;
                a0 <- column angles 0 ;;
                shift <- vmul f0 a0 ;;
                add_to_row 1 mean shift)%error ;;
  mean <- lift (f1 <- column factor 1 ;;
                a0 <- column angles 0 ;;
                s1 <- vmul f1 a0 ;;
                f2 <- column factor 2 ;;
                a1 <- column angles 1 ;;
                s2 <- vmul f2 a1 ;;
                shift <- vplus s1 s2 ;;
                add_to_row 2 mean shift)%error ;;
  logits <- lift (Linear_forward (pt_log_concentration self) encoding) ;;
  activated <- lift (view3 n 3 (pt_mix self) (map (map sigmoid) logits)) ;;
  let concentration := map (map (map (fun s => 0.1 + 1000 * s))) activated in
  logits <- lift (Linear_forward (pt_weights self) encoding) ;;
  let weights := map softmax logits in
  let parameters :=
    map (fun idx => (slice_last mean idx, slice_last concentration idx))
        (seq 0 (pt_mix self)) in
  ret (weights, parameters).

(** [ProteinTransformer.forward(angles, tertiary, structure, subgraph)] *)
Definition ProteinTransformer_forward {subgraph_t : Type}
    (self : ProteinTransformer) (angles : matrix) (tertiary : list matrix)
    (structure : structure) (subgraph : subgraph_t)
  : M rng (matrix * list (matrix * matrix)) :=
  features <- lift (angle_features self angles) ;;
  relative_structure <- orientation_features self tertiary structure ;;
  encoding <- StructuredTransformerEncoder_forward
                (pt_encoder self) features relative_structure ;;
  mixture_heads self angles encoding.

End Model.

End Transformer.

(** ** What the results are stated with *)

Module GeometrySpec.
Import Np Geometry.

(** Determinant of a 3x3 matrix, expanded along the first row. *)
Definition det3 (m : matrix) : R :=
  let e i j := nth j (nth i m []) 0 in
  e 0%nat 0%nat * (e 1%nat 1%nat * e 2%nat 2%nat - e 1%nat 2%nat * e 2%nat 1%nat)
  - e 0%nat 1%nat * (e 1%nat 0%nat * e 2%nat 2%nat - e 1%nat 2%nat * e 2%nat 0%nat)
  + e 0%nat 2%nat * (e 1%nat 0%nat * e 2%nat 1%nat - e 1%nat 1%nat * e 2%nat 0%nat).

(** The entries of [I + s K + (1 - c) K^2], where [K] is the cross-product
    matrix of [(u0, u1, u2)]. *)
Definition rodrigues (u0 u1 u2 s c : R) : matrix :=
  [[1 - (1 - c) * (u1 * u1 + u2 * u2);
    (1 - c) * (u0 * u1) - s * u2;
    (1 - c) * (u0 * u2) + s * u1];
   [(1 - c) * (u0 * u1) + s * u2;
    1 - (1 - c) * (u0 * u0 + u2 * u2);
    (1 - c) * (u1 * u2) - s * u0];
   [(1 - c) * (u0 * u2) - s * u1;
    (1 - c) * (u1 * u2) + s * u0;
    1 - (1 - c) * (u0 * u0 + u1 * u1)]].

(** [rot] is the rotation by the angle [a] about the unit axis [u]: a 3x3
    matrix with [rot^T rot = I] and determinant one that fixes [u] and
    moves every vector as Rodrigues' formula says. *)
Definition rotation_about (u : vector) (a : R) (rot : matrix) : Prop :=
  length rot = 3%nat
  /\ Forall (fun r => length r = 3%nat) rot
  /\ matmul (transpose rot) rot = eye 3
  /\ det3 rot = 1
  /\ matvec rot u = u
  /\ forall v0 v1 v2 : R,
       exists uxv,
         cross u [v0; v1; v2] = Some uxv
         /\ matvec rot [v0; v1; v2]
            = vadd (vadd (vscale (cos a) [v0; v1; v2]) (vscale (sin a) uxv))
                   (vscale ((1 - cos a) * dot u [v0; v1; v2]) u).

(** The window test of [_assign_psea_aux] on one distance. *)
Definition distance_fits (distances : vector) (distance_spec : list (R * R))
    (idx : nat) : option bool :=
  '(target, area) <- nth_error distance_spec idx ;;
  d <- nth_error distances (idx + 2) ;;
  Some (Rltb (target - area) d && Rltb d (target + area)).

(** The three distance tests together. *)
Definition distances_fit (distances : vector) (distance_spec : list (R * R))
  : option bool :=
  f0 <- distance_fits distances distance_spec 0 ;;
  f1 <- distance_fits distances distance_spec 1 ;;
  f2 <- distance_fits distances distance_spec 2 ;;
  Some (f0 && f1 && f2).

(** The window test on the dihedral. *)
Definition dihedral_fits (dihedral : R) (dihedral_spec : R * R) : bool :=
  let '(target, area) := dihedral_spec in
  Rltb (pymod ((target - area) + 180) 360 / 180 * PI) dihedral
  && Rltb dihedral (pymod ((target + area) + 180) 360 / 180 * PI).

End GeometrySpec.

Module TransformerSpec.
Import Np Geometry Torch Transformer.

Section Computations.
Context {rng : Type}.

(** Two computations that do the same from every state of the generator. *)
Definition same {A : Type} (m m' : M rng A) : Prop := forall g, m g = m' g.

End Computations.

Section Blocks.
Context {L : Library}.
Local Open Scope torch_scope.

(** A residual connection around a sublayer: the dropout of the sublayer's
    output is added to the sublayer's input. *)
Definition residual (dropout sublayer : module rng) (x : matrix)
  : M rng matrix :=
  y <- sublayer x ;;
  d <- dropout y ;;
  ret (madd x d).

(** The block without normalization and without dropout: attention added
    to the input, then the MLP added to that sum. *)
Definition plain_block (self : StructuredTransformerEncoderBlock)
    (features : matrix) (structure : orientation_structure) : M rng matrix :=
  a <- blk_attention self features features structure ;;
  let out := madd features a in
  l <- blk_local self out ;;
  let out := madd out l in
  ret out.

(** The blocks applied one after the other, in the order of the list, to
    the result of [start]. *)
Definition in_sequence (blocks : list StructuredTransformerEncoderBlock)
    (structure : orientation_structure) (start : M rng matrix)
  : M rng matrix :=
  fold_left
    (fun acc block =>
       out <- acc ;; StructuredTransformerEncoderBlock_forward block out structure)
    blocks start.

End Blocks.

(** A row of mixture weights: [k] nonnegative numbers that sum to one. *)
Definition categorical (k : nat) (row : vector) : Prop :=
  length row = k /\ Forall (fun w => 0 <= w) row /\ sum row = 1.

(** The sines and the cosines of one row of angles, side by side. *)
Definition sin_cos (row : vector) : vector := map sin row ++ map cos row.

(** *** An example *)

(** A small instance of the imported modules, used to run the model on
    concrete inputs: the generator has one state, modules are in
    evaluation mode (dropout is the identity), attention returns its
    query, the MLP and the layer normalization return their input, every
    linear layer starts with weight one and bias zero, and [AngleProject]
    returns rows of zeros. *)
Definition example_library : Library := {|
  rng := unit;
  structure := unit;
  relative_structure := unit;
  relative_data := unit;
  message_edges := unit;
  message_mask := unit;
  orientation_structure := unit;
  layer := unit;
  activation_fn := unit;
  position_lookup := unit;
  MLP := fun _ _ _ _ _ _ _ => ret (fun x => ret x);
  Dropout := fun _ => ret (fun x => ret x);
  LayerNorm := fun _ => ret (fun x => ret x);
  Linear_parameters := fun _ _ => ret (fun _ _ => 1, fun _ => 0);
  AngleProject := fun _ o => ret (fun x => ret (map (fun _ => repeat 0 o) x));
  PositionLookup := fun _ => ret tt;
  FlexibleRelativeStructure := fun _ _ => ret tt;
  message := fun _ _ _ => ret (tt, tt, tt);
  FlexibleOrientationStructure := fun _ _ => ret tt
|}.

(** [connected] for the example: attention that returns its query. *)
Definition example_connected : @connected_fn example_library :=
  fun _ _ _ _ _ => ret (fun q _ _ => ret q).

Definition example_block (pre_norm : bool)
  : @StructuredTransformerEncoderBlock example_library :=
  @Build_StructuredTransformerEncoderBlock example_library
    pre_norm false (fun q _ _ => ret q) (fun x => ret x) tt
    (fun x => ret x) (fun x => ret x) (fun x => ret x).

Definition example_linear (i o : nat) : Linear :=
  {| in_features := i; out_features := o;
     weight := fun _ _ => 1; bias := fun _ => 0 |}.

(** The model that [ProteinTransformer.__init__] builds in the example
    library with [size = 2], [mix = 2], [depth = 1] and no layer
    normalization. *)
Definition example_model : @ProteinTransformer example_library :=
  @Build_ProteinTransformer example_library
    (@Build_StructuredTransformerEncoder example_library
       (example_linear 2 2) [example_block true])
    2 false tt false 15 tt (0, 20, 16%Z)
    (example_linear 6 2)
    (fun x => ret (map (fun _ => repeat 0 (3 * 2)) x))
    (example_linear 2 (3 * 2))
    (example_linear 2 2)
    (example_linear 2 3).

(** Two residues: their torsion angles and their backbone atoms. *)
Definition example_angles : matrix := [[0; 0; 0]; [1; 2; 3]].

Definition example_tertiary : list matrix :=
  [[[0; 0; 0]; [1; 0; 0]; [2; 0; 0]];
   [[2; 1; 0]; [3; 1; 0]; [4; 1; 0]]].

End TransformerSpec.

(** ** Results *)

Module ListFacts.
Import Np.

Lemma map2_length {A B C : Type} (f : A -> B -> C) (l : list A) (l' : list B) :
  length (map2 f l l') = Nat.min (length l) (length l').
Proof.
  revert l'. induction l as [|a l IH]; intros [|b l']; simpl; auto.
Qed.

Lemma nth_map2 {A B C : Type} (f : A -> B -> C) (l : list A) (l' : list B)
    (j : nat) (da : A) (db : B) (dc : C) :
  (j < length l)%nat -> (j < length l')%nat ->
  nth j (map2 f l l') dc = f (nth j l da) (nth j l' db).
Proof.
  revert l' j. induction l as [|a l IH]; intros [|b l'] j Hl Hl'; simpl in *;
    try lia.
  destruct j as [|j]; [reflexivity|]. apply IH; lia.
Qed.

Lemma nth_map_seq {A : Type} (f : nat -> A) (n j : nat) (d : A) :
  (j < n)%nat -> nth j (map f (seq 0 n)) d = f j.
Proof.
  intros Hj.
  rewrite (nth_indep _ d (f O)) by (rewrite length_map, length_seq; exact Hj).
  rewrite map_nth, seq_nth by exact Hj. reflexivity.
Qed.

Lemma nth_map {A B : Type} (f : A -> B) (l : list A) (j : nat) (da : A) (db : B) :
  (j < length l)%nat -> nth j (map f l) db = f (nth j l da).
Proof.
  intros Hj.
  rewrite (nth_indep _ db (f da)) by (rewrite length_map; exact Hj).
  apply map_nth.
Qed.

End ListFacts.

Module GeometryFacts.
Import Np Geometry GeometrySpec ListFacts.

Lemma shape3_inv (c : nat) (m : matrix) :
  shape 3 c m ->
  exists r0 r1 r2,
    m = [r0; r1; r2] /\ length r0 = c /\ length r1 = c /\ length r2 = c.
Proof.
  intros [Hlen Hrows].
  destruct m as [|r0 [|r1 [|r2 [|r3 m]]]]; simpl in Hlen; try discriminate.
  inversion Hrows as [|? ? H0 Hrows1]; subst.
  inversion Hrows1 as [|? ? H1 Hrows2]; subst.
  inversion Hrows2 as [|? ? H2 _]; subst.
  exists r0, r1, r2. auto.
Qed.

Lemma length3_inv (v : vector) :
  length v = 3%nat -> exists a b c, v = [a; b; c].
Proof.
  destruct v as [|a [|b [|c [|d v]]]]; simpl; try discriminate.
  intros _. exists a, b, c. reflexivity.
Qed.

Lemma col_matmul (a b : matrix) (j : nat) :
  (j < ncols b)%nat -> col (matmul a b) j = matvec a (col b j).
Proof.
  intros Hj. unfold col at 1, matmul, matvec.
  rewrite map_map. apply map_ext. intros r.
  unfold transpose. rewrite map_map.
  apply (nth_map_seq (fun i => dot r (col b i))). exact Hj.
Qed.


Lemma norm_sq (a0 a1 a2 : R) :
  norm [a0; a1; a2] * norm [a0; a1; a2] = a0 * a0 + a1 * a1 + a2 * a2.
Proof.
  unfold norm, sum; simpl.
  rewrite sqrt_sqrt; [ring|].
  nra.
Qed.

Lemma norm_pos (a0 a1 a2 : R) :
  [a0; a1; a2] <> [0; 0; 0] -> 0 < norm [a0; a1; a2].
Proof.
  intros Hnz. unfold norm, sum; simpl.
  apply sqrt_lt_R0.
  destruct (Req_dec a0 0) as [E0|N0]; [|nra].
  destruct (Req_dec a1 0) as [E1|N1]; [|nra].
  destruct (Req_dec a2 0) as [E2|N2]; [|nra].
  subst. contradiction.
Qed.

Lemma unit_normalised (a0 a1 a2 : R) :
  [a0; a1; a2] <> [0; 0; 0] ->
  let n := norm [a0; a1; a2] in
  (a0 / n) * (a0 / n) + (a1 / n) * (a1 / n) + (a2 / n) * (a2 / n) = 1.
Proof.
  intros Hnz n.
  pose proof (norm_pos a0 a1 a2 Hnz) as Hpos.
  pose proof (norm_sq a0 a1 a2) as Hsq.
  fold n in Hpos, Hsq.
  assert (Hn : n <> 0) by lra.
  replace (a0 / n * (a0 / n) + a1 / n * (a1 / n) + a2 / n * (a2 / n))
    with ((a0 * a0 + a1 * a1 + a2 * a2) / (n * n)) by (field; exact Hn).
  rewrite <- Hsq. field. exact Hn.
Qed.

Ltac list_eq := repeat (f_equal; try ring).

Lemma compute_rotation_matrix_eq (a0 a1 a2 angle : R) :
  let n := norm [a0; a1; a2] in
  compute_rotation_matrix [a0; a1; a2] angle
  = Some (rodrigues (a0 / n) (a1 / n) (a2 / n) (sin angle) (cos angle)).
Proof.
  intros n. unfold compute_rotation_matrix, rodrigues.
  cbn -[norm sin cos Rdiv]. fold n.
  list_eq.
Qed.

Section Rodrigues.
Variables u0 u1 u2 s c : R.
Hypothesis unit_axis : u0 * u0 + u1 * u1 + u2 * u2 = 1.
Hypothesis unit_circle : s * s + c * c = 1.

Let rot := rodrigues u0 u1 u2 s c.

Lemma rodrigues_orthogonal : matmul (transpose rot) rot = eye 3.
Proof.
  unfold rot, rodrigues. cbn.
  repeat (f_equal; try nsatz).
Qed.

Lemma rodrigues_det : det3 rot = 1.
Proof.
  unfold rot, rodrigues, det3. cbn.
  nsatz.
Qed.

Lemma rodrigues_axis : matvec rot [u0; u1; u2] = [u0; u1; u2].
Proof.
  unfold rot, rodrigues. cbn.
  repeat (f_equal; try nsatz).
Qed.

Lemma rodrigues_vector (v0 v1 v2 : R) :
  matvec rot [v0; v1; v2]
  = vadd (vadd (vscale c [v0; v1; v2])
               (vscale s [u1 * v2 - u2 * v1; u2 * v0 - u0 * v2; u0 * v1 - u1 * v0]))
         (vscale ((1 - c) * dot [u0; u1; u2] [v0; v1; v2]) [u0; u1; u2]).
Proof.
  unfold rot, rodrigues. cbn.
  repeat (f_equal; try nsatz).
Qed.

End Rodrigues.

Lemma sin_cos_circle (a : R) : sin a * sin a + cos a * cos a = 1.
Proof. pose proof (sin2_cos2 a) as H. unfold Rsqr in H. exact H. Qed.

(** C1: for every nonzero axis and every angle, [compute_rotation_matrix]
    returns a 3x3 matrix [rot] with [rot^T rot = I], [det rot = 1] and
    [rot u = u] for the normalised axis [u], and [rot] acts on every vector
    as Rodrigues' formula for the rotation by the angle about [u]. *)
Theorem compute_rotation_matrix_is_rotation (a0 a1 a2 angle : R) :
  [a0; a1; a2] <> [0; 0; 0] ->
  exists rot,
    compute_rotation_matrix [a0; a1; a2] angle = Some rot
    /\ rotation_about (vdiv [a0; a1; a2] (norm [a0; a1; a2])) angle rot.
Proof.
  intros Hnz.
  pose proof (unit_normalised a0 a1 a2 Hnz) as Hu. cbv zeta in Hu.
  pose proof (sin_cos_circle angle) as Hsc.
  eexists. split; [apply compute_rotation_matrix_eq|].
  cbv zeta. cbn [vdiv map].
  set (n := norm [a0; a1; a2]) in *.
  repeat split.
  - repeat constructor.
  - apply rodrigues_orthogonal; assumption.
  - apply rodrigues_det; assumption.
  - apply rodrigues_axis; assumption.
  - intros v0 v1 v2. eexists. split; [reflexivity|].
    apply rodrigues_vector; assumption.
Qed.

Lemma compute_rotation_matrix_is_rotation_witness :
  exists rot,
    compute_rotation_matrix [0; 0; 1] (PI / 2) = Some rot
    /\ rotation_about (vdiv [0; 0; 1] (norm [0; 0; 1])) (PI / 2) rot.
Proof.
  apply (compute_rotation_matrix_is_rotation 0 0 1 (PI / 2)).
  intros H. inversion H. lra.
Defined.

Lemma norm_one_sq (u0 u1 u2 : R) :
  norm [u0; u1; u2] = 1 -> u0 * u0 + u1 * u1 + u2 * u2 = 1.
Proof.
  intros H. rewrite <- norm_sq, H. ring.
Qed.

Lemma cos_half_pos (a : R) : - PI < a < PI -> 0 < cos (a / 2).
Proof.
  intros [Hl Hr]. apply cos_gt_0; lra.
Qed.

Lemma one_plus_trace (u0 u1 u2 a : R) :
  u0 * u0 + u1 * u1 + u2 * u2 = 1 ->
  1 + (1 - (1 - cos a) * (u1 * u1 + u2 * u2))
    + (1 - (1 - cos a) * (u0 * u0 + u2 * u2))
    + (1 - (1 - cos a) * (u0 * u0 + u1 * u1))
  = (2 * cos (a / 2)) * (2 * cos (a / 2)).
Proof.
  intros Hu.
  assert (Hc : cos a = 2 * cos (a / 2) * cos (a / 2) - 1).
  { replace a with (2 * (a / 2)) at 1 by field. apply cos_2a_cos. }
  rewrite Hc. nsatz.
Qed.

(** C2: for a unit axis [u] and an angle [a] with [-pi < a < pi], the
    numpy branch of [matrix_to_quaternion] sends the matrix that
    [compute_rotation_matrix u a] returns to the quaternion
    [(cos (a/2), sin (a/2) u)], and that quaternion has norm one. *)
Theorem matrix_to_quaternion_inverts_rotation (u0 u1 u2 a : R) :
  norm [u0; u1; u2] = 1 ->
  - PI < a < PI ->
  exists rot,
    compute_rotation_matrix [u0; u1; u2] a = Some rot
    /\ matrix_to_quaternion (Nd2 rot)
       = Some (Nd1 (cos (a / 2) :: vscale (sin (a / 2)) [u0; u1; u2]))
    /\ norm (cos (a / 2) :: vscale (sin (a / 2)) [u0; u1; u2]) = 1.
Proof.
  intros Hn Ha.
  pose proof (norm_one_sq _ _ _ Hn) as Hu.
  pose proof (cos_half_pos a Ha) as Hpos.
  pose proof (sin_cos_circle (a / 2)) as Hsc.
  eexists. split; [apply compute_rotation_matrix_eq|].
  cbv zeta. rewrite Hn. rewrite !Rdiv_1_r.
  split.
  - unfold rodrigues. cbn -[Rdiv].
    rewrite (one_plus_trace u0 u1 u2 a Hu).
    rewrite sqrt_square by lra.
    assert (Hs : sin a = 2 * sin (a / 2) * cos (a / 2)).
    { replace a with (2 * (a / 2)) at 1 by field. apply sin_2a. }
    rewrite Hs.
    repeat (f_equal; try (field; lra)).
  - unfold norm, sum. cbn.
    replace (cos (a / 2) * cos (a / 2) +
             (sin (a / 2) * u0 * (sin (a / 2) * u0) +
              (sin (a / 2) * u1 * (sin (a / 2) * u1) +
               (sin (a / 2) * u2 * (sin (a / 2) * u2) + 0)))) with 1
      by nsatz.
    apply sqrt_1.
Qed.

Lemma norm_e3 : norm [0; 0; 1] = 1.
Proof.
  unfold norm, sum. cbn.
  replace (0 * 0 + (0 * 0 + (1 * 1 + 0))) with 1 by ring.
  apply sqrt_1.
Qed.

Lemma matrix_to_quaternion_inverts_rotation_witness :
  exists rot,
    compute_rotation_matrix [0; 0; 1] (PI / 2) = Some rot
    /\ matrix_to_quaternion (Nd2 rot)
       = Some (Nd1 (cos (PI / 2 / 2) :: vscale (sin (PI / 2 / 2)) [0; 0; 1]))
    /\ norm (cos (PI / 2 / 2) :: vscale (sin (PI / 2 / 2)) [0; 0; 1]) = 1.
Proof.
  apply (matrix_to_quaternion_inverts_rotation 0 0 1 (PI / 2)).
  - exact norm_e3.
  - pose proof PI_RGT_0. lra.
Defined.

(** A quarter turn about the third axis takes the first axis to the
    second. *)
Example compute_rotation_quarter_turn :
  compute_rotation [1; 0; 0] [0; 0; 1] (PI / 2) = Some [0; 1; 0].
Proof.
  unfold compute_rotation. rewrite compute_rotation_matrix_eq. cbv zeta.
  rewrite norm_e3, sin_PI2, cos_PI2. unfold rodrigues. cbn.
  repeat (f_equal; try (field; lra)).
Qed.

Example transpose_2x3 :
  transpose [[1; 2; 3]; [4; 5; 6]] = [[1; 4]; [2; 5]; [3; 6]].
Proof. reflexivity. Qed.

(** Python's [-35 % 360] is [325]. *)
Example pymod_negative : pymod (-35) 360 = 325.
Proof.
  unfold pymod.
  replace (Int_part (-35 / 360)) with (-1)%Z
    by (apply Int_part_spec; lra).
  lra.
Qed.

(** *** relative_orientation on numpy arrays *)

Section NumpyRelativeOrientation.
Variable N : nat.
Variables x y x_o y_o : matrix.
Hypothesis shape_x : shape 3 N x.
Hypothesis shape_y : shape 3 N y.
Hypothesis shape_x_o : shape 3 3 x_o.
Hypothesis shape_y_o : shape 3 3 y_o.

Let offset := msub y x.
Let distance := norm_axis0 offset.

Lemma offset_shape : shape 3 N offset.
Proof.
  destruct (shape3_inv _ _ shape_x) as (x0 & x1 & x2 & -> & Hx0 & Hx1 & Hx2).
  destruct (shape3_inv _ _ shape_y) as (y0 & y1 & y2 & -> & Hy0 & Hy1 & Hy2).
  unfold offset, msub, vsub. cbn. split; [reflexivity|].
  repeat constructor; rewrite map2_length; lia.
Qed.

Lemma ncols_shape (c : nat) (m : matrix) : shape 3 c m -> ncols m = c.
Proof.
  intros H. destruct (shape3_inv _ _ H) as (r0 & r1 & r2 & -> & H0 & _).
  exact H0.
Qed.

Lemma distance_length : length distance = N.
Proof.
  unfold distance, norm_axis0, transpose.
  rewrite !length_map, length_seq. apply ncols_shape, offset_shape.
Qed.

Lemma distance_nth (j : nat) :
  (j < N)%nat -> nth j distance 0 = norm (col offset j).
Proof.
  intros Hj. unfold distance, norm_axis0, transpose. rewrite map_map.
  apply (nth_map_seq (fun i => norm (col offset i))).
  rewrite (ncols_shape N) by apply offset_shape. exact Hj.
Qed.

Let scaled := map (fun r => map2 Rdiv r distance) offset.

Lemma scaled_shape : shape 3 N scaled.
Proof.
  destruct (shape3_inv _ _ offset_shape) as (o0 & o1 & o2 & E & H0 & H1 & H2).
  unfold scaled. rewrite E. cbn. split; [reflexivity|].
  repeat constructor; rewrite map2_length, distance_length; lia.
Qed.

Lemma scaled_col (j : nat) :
  (j < N)%nat -> col scaled j = vdiv (col offset j) (nth j distance 0).
Proof.
  intros Hj.
  destruct (shape3_inv _ _ offset_shape) as (o0 & o1 & o2 & E & H0 & H1 & H2).
  unfold scaled. rewrite E. cbn.
  rewrite !(nth_map2 Rdiv _ _ j 0 0 0) by (rewrite ?distance_length; lia).
  reflexivity.
Qed.

Let product := matmul (transpose x_o) scaled.
Let direction := zero_columns product (map (fun d => Reqb d 0) distance).

Lemma transpose_shape (m : matrix) : shape 3 3 m -> shape 3 3 (transpose m).
Proof.
  intros H. destruct (shape3_inv _ _ H) as (r0 & r1 & r2 & -> & H0 & H1 & H2).
  unfold transpose. cbn. rewrite H0. cbn. split; [reflexivity|].
  repeat constructor.
Qed.

Lemma product_shape : shape 3 N product.
Proof.
  destruct (shape3_inv _ _ (transpose_shape _ shape_x_o))
    as (t0 & t1 & t2 & E & _).
  unfold product, matmul. rewrite E. cbn. split; [reflexivity|].
  repeat constructor; unfold transpose;
    rewrite !length_map, length_seq; apply ncols_shape, scaled_shape.
Qed.

Lemma direction_shape : shape 3 N direction.
Proof.
  destruct (shape3_inv _ _ product_shape) as (p0 & p1 & p2 & E & H0 & H1 & H2).
  unfold direction, zero_columns. rewrite E. cbn. split; [reflexivity|].
  repeat constructor; rewrite map2_length, length_map, distance_length; lia.
Qed.

Lemma direction_col (j : nat) :
  (j < N)%nat ->
  col direction j
  = if Reqb (nth j distance 0) 0 then [0; 0; 0] else col product j.
Proof.
  intros Hj.
  destruct (shape3_inv _ _ product_shape) as (p0 & p1 & p2 & E & H0 & H1 & H2).
  unfold direction, zero_columns. rewrite E. cbn.
  rewrite !(nth_map2 _ _ _ j 0 false 0)
    by (rewrite ?length_map, ?distance_length; lia).
  rewrite (nth_map (fun d => Reqb d 0) distance j 0 false)
    by (rewrite distance_length; exact Hj).
  destruct (Reqb (nth j distance 0) 0); reflexivity.
Qed.

Lemma rotation_defined :
  exists q, matrix_to_quaternion_np (matmul (transpose x_o) y_o) = Some q.
Proof.
  destruct (shape3_inv _ _ (transpose_shape _ shape_x_o))
    as (t0 & t1 & t2 & E & _).
  destruct (shape3_inv _ _ shape_y_o) as (r0 & r1 & r2 & -> & H0 & H1 & H2).
  destruct (length3_inv _ H0) as (? & ? & ? & ->).
  destruct (length3_inv _ H1) as (? & ? & ? & ->).
  destruct (length3_inv _ H2) as (? & ? & ? & ->).
  rewrite E. cbn. eexists. reflexivity.
Qed.

(** C3: on numpy arrays [x], [y] of shape (3, N) and frames [x_o], [y_o]
    of shape (3, 3), [relative_orientation] returns the triple
    (distance, direction, rotation): [distance] holds the norm of every
    column of [y - x]; column [j] of [direction] is [x_o^T] applied to
    that column divided by its norm when the norm is not zero, and the
    zero vector when it is; [rotation] is the quaternion of [x_o^T y_o]. *)
Theorem relative_orientation_numpy :
  exists (dist : vector) (dir : matrix) (rotation : array),
    relative_orientation (Nd2 x) (Nd2 y) (Nd2 x_o) (Nd2 y_o)
    = Some (Nd1 dist, Nd2 dir, rotation)
    /\ matrix_to_quaternion (Nd2 (matmul (transpose x_o) y_o)) = Some rotation
    /\ length dist = N
    /\ shape 3 N dir
    /\ forall j, (j < N)%nat ->
         nth j dist 0 = norm (col (msub y x) j)
         /\ (nth j dist 0 <> 0 ->
             col dir j
             = matvec (transpose x_o)
                 (vdiv (col (msub y x) j) (nth j dist 0)))
         /\ (nth j dist 0 = 0 -> col dir j = [0; 0; 0]).
Proof.
  destruct rotation_defined as [q Hq].
  exists distance, direction, (Nd1 q).
  split; [|split; [|split; [|split]]].
  - cbn. unfold _np_relative_orientation. cbn. rewrite Hq. reflexivity.
  - cbn. rewrite Hq. reflexivity.
  - apply distance_length.
  - apply direction_shape.
  - intros j Hj. split; [apply distance_nth; exact Hj|].
    rewrite (direction_col j Hj). unfold Reqb.
    destruct (Req_dec_T (nth j distance 0) 0) as [E|NE]; split; intros H;
      try contradiction; try reflexivity.
    unfold product. rewrite col_matmul.
    + rewrite (scaled_col j Hj). reflexivity.
    + rewrite (ncols_shape N) by apply scaled_shape. exact Hj.
Qed.

End NumpyRelativeOrientation.

(** An instance: one pair of points along the first axis. *)
Lemma relative_orientation_numpy_witness :
  exists (dist : vector) (dir : matrix) (rotation : array),
    relative_orientation (Nd2 [[0]; [0]; [0]]) (Nd2 [[2]; [0]; [0]])
                         (Nd2 (eye 3)) (Nd2 (eye 3))
    = Some (Nd1 dist, Nd2 dir, rotation)
    /\ matrix_to_quaternion (Nd2 (matmul (transpose (eye 3)) (eye 3)))
       = Some rotation
    /\ length dist = 1%nat
    /\ shape 3 1 dir
    /\ forall j, (j < 1)%nat ->
         nth j dist 0 = norm (col (msub [[2]; [0]; [0]] [[0]; [0]; [0]]) j)
         /\ (nth j dist 0 <> 0 ->
             col dir j
             = matvec (transpose (eye 3))
                 (vdiv (col (msub [[2]; [0]; [0]] [[0]; [0]; [0]]) j)
                       (nth j dist 0)))
         /\ (nth j dist 0 = 0 -> col dir j = [0; 0; 0]).
Proof.
  apply (relative_orientation_numpy 1 [[0]; [0]; [0]] [[2]; [0]; [0]]
           (eye 3) (eye 3));
    (split; [reflexivity | repeat constructor]).
Defined.

(** *** The P-SEA assignment *)

Lemma _assign_psea_aux_criteria (distances : vector) (dihedral angle : R)
    (distance_spec : list (R * R)) (dihedral_spec angle_spec : R * R) :
  _assign_psea_aux distances dihedral angle distance_spec dihedral_spec angle_spec
  = (good <- distances_fit distances distance_spec ;;
     Some (good && dihedral_fits dihedral dihedral_spec)).
Proof.
  unfold _assign_psea_aux, distances_fit, distance_fits, dihedral_fits.
  destruct dihedral_spec as [target area].
  cbn [fold_left seq Nat.add obind].
  destruct (nth_error distance_spec 0) as [[t0 r0]|]; cbn [obind]; [|reflexivity].
  destruct (nth_error distances 2) as [d0|]; cbn [obind]; [|reflexivity].
  destruct (nth_error distance_spec 1) as [[t1 r1]|]; cbn [obind]; [|reflexivity].
  destruct (nth_error distances 3) as [d1|]; cbn [obind]; [|reflexivity].
  destruct (nth_error distance_spec 2) as [[t2 r2]|]; cbn [obind]; [|reflexivity].
  destruct (nth_error distances 4) as [d2|]; cbn [obind]; [|reflexivity].
  f_equal.
  repeat match goal with
         | |- context [Rltb ?a ?b] => destruct (Rltb a b)
         end; reflexivity.
Qed.

(** C8: the result of [_assign_psea_aux] is the same for any two choices
    of [angle] and [angle_spec]; it is the conjunction of the distance
    tests and the dihedral test (made twice), with no test on the bond
    angle; so [assign_psea] returns what it would return with any other
    number in place of the bond angle it computed. *)
Theorem _assign_psea_aux_ignores_angle :
  (forall (distances : vector) (dihedral : R)
          (distance_spec : list (R * R)) (dihedral_spec : R * R)
          (angle angle' : R) (angle_spec angle_spec' : R * R),
      _assign_psea_aux distances dihedral angle
        distance_spec dihedral_spec angle_spec
      = _assign_psea_aux distances dihedral angle'
          distance_spec dihedral_spec angle_spec')
  /\ (forall (distances : vector) (dihedral angle : R)
             (distance_spec : list (R * R)) (dihedral_spec angle_spec : R * R),
         _assign_psea_aux distances dihedral angle
           distance_spec dihedral_spec angle_spec
         = (good <- distances_fit distances distance_spec ;;
            Some (good && dihedral_fits dihedral dihedral_spec)))
  /\ (forall (positions : matrix) (angle' : R),
         assign_psea positions
         = ('(distances, dihedral, _) <- psea_measure positions ;;
            psea_classify distances dihedral angle')).
Proof.
  split; [|split].
  - intros. rewrite !_assign_psea_aux_criteria. reflexivity.
  - intros. apply _assign_psea_aux_criteria.
  - intros positions angle'. unfold assign_psea.
    destruct (psea_measure positions) as [[[distances dihedral] angle]|];
      [|reflexivity].
    cbn [obind]. unfold psea_classify.
    rewrite !(_assign_psea_aux_criteria distances dihedral angle).
    rewrite !(_assign_psea_aux_criteria distances dihedral angle').
    reflexivity.
Qed.

Lemma Rltb_false (x y : R) : y <= x -> Rltb x y = false.
Proof.
  intros H. unfold Rltb. destruct (Rlt_dec x y) as [Hlt|_]; [lra | reflexivity].
Qed.

(** Five points at distance zero from the first are not a helix turn,
    whatever the dihedral and the bond angle. *)
Example _assign_psea_aux_coincident (dihedral angle : R) :
  _assign_psea_aux [0; 0; 0; 0; 0] dihedral angle
    [(5.5, 0.5); (5.3, 0.5); (6.4, 0.6)] (50, 20) (89, 12)
  = Some false.
Proof.
  rewrite _assign_psea_aux_criteria.
  unfold distances_fit, distance_fits. cbn [nth_error Nat.add obind].
  rewrite !Rltb_false by lra. reflexivity.
Qed.

(** A remark on [assign_psea] as it stands.  The dihedral needs the three
    rows of [offsets[:-1]] to be vectors of three components, so
    [positions] has four rows of four entries and there are four
    distances; the third distance test reads [distances[4]].  So on a
    two-dimensional array [assign_psea] always raises. *)
Lemma psea_measure_distances (positions : matrix) (distances : vector)
    (dihedral angle : R) :
  psea_measure positions = Some (distances, dihedral, angle) ->
  length distances = 4%nat.
Proof.
  unfold psea_measure. intros H.
  destruct positions as [|p0 [|p1 [|p2 [|p3 [|p4 rest]]]]];
    cbn [diff_next map removelast obind] in H; try discriminate.
  unfold compute_dihedral_angle in H.
  destruct (cross (vsub (tl p0) (removelast p0)) (vsub (tl p1) (removelast p1)))
    as [c1|] eqn:Hc1; [|discriminate].
  assert (Hlen : length (vsub (tl p0) (removelast p0)) = 3%nat).
  { destruct (vsub (tl p0) (removelast p0)) as [|x [|y [|z [|w l]]]];
      simpl in Hc1; try discriminate. reflexivity. }
  unfold vsub in Hlen. rewrite map2_length, length_tl in Hlen.
  assert (Hp0 : length p0 = 4%nat).
  { rewrite removelast_firstn_len, length_firstn in Hlen. lia. }
  cbn [obind] in H.
  repeat match type of H with
         | obind ?m _ = Some _ =>
             destruct m; [cbn [obind] in H | discriminate]
         end.
  inversion H; subst. unfold norm_axis0, transpose.
  rewrite !length_map, length_seq. cbn [ncols map].
  rewrite length_map. exact Hp0.
Qed.

Lemma psea_classify_four (distances : vector) (dihedral angle : R) :
  length distances = 4%nat -> psea_classify distances dihedral angle = None.
Proof.
  intros H. unfold psea_classify.
  rewrite _assign_psea_aux_criteria.
  destruct distances as [|d0 [|d1 [|d2 [|d3 [|d4 l]]]]];
    simpl in H; try discriminate.
  reflexivity.
Qed.

(** [assign_psea] raises on every two-dimensional array of positions: the
    dihedral forces four columns, hence four distances, and the helix test
    reads a fifth. *)
Lemma assign_psea_raises (positions : matrix) : assign_psea positions = None.
Proof.
  unfold assign_psea.
  destruct (psea_measure positions) as [[[distances dihedral] angle]|] eqn:H;
    [|reflexivity].
  cbn [obind]. apply psea_classify_four.
  eapply psea_measure_distances. exact H.
Qed.

End GeometryFacts.

Module TransformerFacts.
Import Np Geometry Torch Transformer TransformerSpec ListFacts.

Section Monad.
Context {rng : Type}.
Local Open Scope torch_scope.

Lemma same_refl {A : Type} (m : M rng A) : same m m.
Proof. intros g. reflexivity. Qed.

Lemma same_trans {A : Type} (m1 m2 m3 : M rng A) :
  same m1 m2 -> same m2 m3 -> same m1 m3.
Proof. intros H12 H23 g. rewrite H12. apply H23. Qed.

Lemma bind_same {A B : Type} (m m' : M rng A) (f f' : A -> M rng B) :
  same m m' -> (forall a, same (f a) (f' a)) -> same (bind m f) (bind m' f').
Proof.
  intros Hm Hf g. unfold bind. rewrite Hm.
  destruct (m' g) as [[a g']|]; [apply Hf | reflexivity].
Qed.

Lemma bind_ret_l {A B : Type} (a : A) (f : A -> M rng B) :
  same (bind (ret a) f) (f a).
Proof. intros g. reflexivity. Qed.

Lemma bind_ret_r {A : Type} (m : M rng A) : same (bind m ret) m.
Proof.
  intros g. unfold bind, ret. destruct (m g) as [[a g']|]; reflexivity.
Qed.

Lemma bind_assoc {A B C : Type} (m : M rng A) (f : A -> M rng B)
    (h : B -> M rng C) :
  same (bind (bind m f) h) (bind m (fun a => bind (f a) h)).
Proof.
  intros g. unfold bind. destruct (m g) as [[a g']|]; reflexivity.
Qed.

Lemma bind_Some {A B : Type} (m : M rng A) (f : A -> M rng B) (g g' : rng)
    (b : B) :
  bind m f g = Some (b, g') ->
  exists a g1, m g = Some (a, g1) /\ f a g1 = Some (b, g').
Proof.
  unfold bind. destruct (m g) as [[a g1]|]; [|discriminate].
  intros H. exists a, g1. split; [reflexivity | exact H].
Qed.

Lemma bind_run {A B : Type} (m : M rng A) (f : A -> M rng B) (g g1 : rng)
    (a : A) :
  m g = Some (a, g1) -> bind m f g = f a g1.
Proof. intros H. unfold bind. rewrite H. reflexivity. Qed.

Lemma bind_lift {A B : Type} (o : option A) (f : A -> M rng B) (g : rng)
    (a : A) :
  o = Some a -> bind (lift o) f g = f a g.
Proof. intros ->. reflexivity. Qed.

Lemma lift_Some {A : Type} (o : option A) (g g' : rng) (a : A) :
  lift o g = Some (a, g') -> o = Some a /\ g' = g.
Proof.
  unfold lift. destruct o as [x|]; [|discriminate].
  intros H. inversion H. split; reflexivity.
Qed.

Lemma ret_Some {A : Type} (x a : A) (g g' : rng) :
  ret x g = Some (a, g') -> a = x /\ g' = g.
Proof.
  unfold ret. intros H. inversion H. split; reflexivity.
Qed.

End Monad.

(** Splits a successful run of a [bind] into its two runs. *)
Tactic Notation "run_inv" hyp(H) "as" ident(a) ident(g) ident(H1) :=
  apply bind_Some in H; destruct H as (a & g & H1 & H).

(** *** Lists, pieces and linear layers *)

Section Tensors.

Lemma mapM_Forall2 {A B : Type} (f : A -> option B) (l : list A) (l' : list B) :
  mapM f l = Some l' -> Forall2 (fun a b => f a = Some b) l l'.
Proof.
  revert l'. induction l as [|a l IH]; intros l' H; simpl in H.
  - inversion H. constructor.
  - destruct (f a) as [b|] eqn:Hb; [|discriminate]. cbn in H.
    destruct (mapM f l) as [bs|]; [|discriminate]. cbn in H.
    inversion H; subst. constructor; auto.
Qed.

Lemma mapM_length {A B : Type} (f : A -> option B) (l : list A) (l' : list B) :
  mapM f l = Some l' -> length l' = length l.
Proof.
  intros H. apply mapM_Forall2 in H.
  induction H; simpl; congruence.
Qed.

Lemma mapM_total {A B : Type} (f : A -> option B) (h : A -> B) (l : list A) :
  Forall (fun a => f a = Some (h a)) l -> mapM f l = Some (map h l).
Proof.
  induction 1 as [|a l Ha _ IH]; simpl; [reflexivity|].
  rewrite Ha. cbn. rewrite IH. reflexivity.
Qed.

Lemma mapM_image {A B : Type} (f : A -> option B) (Q : B -> Prop)
    (l : list A) (l' : list B) :
  (forall a b, f a = Some b -> Q b) -> mapM f l = Some l' -> Forall Q l'.
Proof.
  intros Hf H. apply mapM_Forall2 in H.
  induction H; constructor; eauto.
Qed.

Lemma Linear_row_length (l : Linear) (x : vector) :
  length (Linear_row l x) = out_features l.
Proof.
  unfold Linear_row. rewrite length_map, length_seq. reflexivity.
Qed.

Lemma Linear_forward_shape (l : Linear) (x y : matrix) :
  Linear_forward l x = Some y -> shape (length x) (out_features l) y.
Proof.
  intros H. split.
  - eapply mapM_length. exact H.
  - eapply mapM_image; [|exact H].
    intros r b Hb. cbv beta in Hb.
    destruct (Nat.eqb (length r) (in_features l)); [|discriminate].
    inversion Hb. apply Linear_row_length.
Qed.

Lemma Linear_forward_rows (l : Linear) (x : matrix) :
  Forall (fun r => length r = in_features l) x ->
  Linear_forward l x = Some (map (Linear_row l) x).
Proof.
  intros H. apply mapM_total.
  eapply Forall_impl; [|exact H].
  intros r Hr. cbv beta. rewrite Hr, Nat.eqb_refl. reflexivity.
Qed.

Lemma chunk_length {A : Type} (n k : nat) (l : list A) :
  length (chunk n k l) = n.
Proof.
  revert l. induction n as [|n IH]; intros l; simpl; [reflexivity|].
  rewrite IH. reflexivity.
Qed.

Lemma chunk_rows {A : Type} (n k : nat) (l : list A) :
  (n * k <= length l)%nat -> Forall (fun r => length r = k) (chunk n k l).
Proof.
  revert l. induction n as [|n IH]; intros l Hl; simpl; constructor.
  - rewrite length_firstn. simpl in Hl. lia.
  - apply IH. rewrite length_skipn. simpl in Hl. lia.
Qed.

Lemma Forall_firstn {A : Type} (Q : A -> Prop) (k : nat) (l : list A) :
  Forall Q l -> Forall Q (firstn k l).
Proof.
  intros H. apply Forall_forall. intros x Hx.
  rewrite Forall_forall in H. apply H.
  rewrite <- (firstn_skipn k l). apply in_or_app. left. exact Hx.
Qed.

Lemma Forall_skipn {A : Type} (Q : A -> Prop) (k : nat) (l : list A) :
  Forall Q l -> Forall Q (skipn k l).
Proof.
  intros H. apply Forall_forall. intros x Hx.
  rewrite Forall_forall in H. apply H.
  rewrite <- (firstn_skipn k l). apply in_or_app. right. exact Hx.
Qed.

Lemma chunk_Forall {A : Type} (Q : A -> Prop) (n k : nat) (l : list A) :
  Forall Q l -> Forall (Forall Q) (chunk n k l).
Proof.
  revert l. induction n as [|n IH]; intros l H; simpl; constructor.
  - apply Forall_firstn. exact H.
  - apply IH. apply Forall_skipn. exact H.
Qed.

Lemma view3_shape (n a b : nat) (t : matrix) (v : list matrix) :
  view3 n a b t = Some v ->
  length v = n /\ Forall (shape a b) v.
Proof.
  unfold view3. destruct (Nat.eqb_spec (length (concat t)) (n * a * b)) as [E|];
    [|discriminate].
  intros H. inversion H; subst v. clear H. split.
  - rewrite length_map. apply chunk_length.
  - apply Forall_map.
    assert (Hrows : Forall (fun r => length r = (a * b)%nat)
                      (chunk n (a * b) (concat t))).
    { apply chunk_rows. lia. }
    eapply Forall_impl; [|exact Hrows].
    intros r Hr. cbv beta in Hr. split; [apply chunk_length|].
    apply chunk_rows. rewrite Hr. apply Nat.le_refl.
Qed.

Lemma view3_Forall (Q : R -> Prop) (n a b : nat) (t : matrix) (v : list matrix) :
  Forall (Forall Q) t -> view3 n a b t = Some v ->
  Forall (Forall (Forall Q)) v.
Proof.
  unfold view3. intros Ht.
  destruct (Nat.eqb (length (concat t)) (n * a * b)); [|discriminate].
  intros H. inversion H; subst v. clear H.
  apply Forall_map.
  assert (Hflat : Forall Q (concat t)) by (apply Forall_concat; exact Ht).
  eapply Forall_impl; [|apply (chunk_Forall Q n (a * b)); exact Hflat].
  intros r Hr. apply chunk_Forall. exact Hr.
Qed.

Lemma add_to_row_shape (j a : nat) (t t' : list matrix) (v : vector) :
  add_to_row j t v = Some t' ->
  length t' = length t
  /\ (Forall (fun m => length m = a) t -> Forall (fun m => length m = a) t').
Proof.
  unfold add_to_row.
  destruct (Nat.eqb_spec (length t) (length v)) as [E|]; [|discriminate].
  intros H. split.
  - apply mapM_length in H. rewrite H, length_combine. lia.
  - intros Ht. apply mapM_Forall2 in H.
    assert (Hc : Forall (fun p => length (fst p) = a) (combine t v)).
    { apply Forall_forall. intros [m x] Hin. apply in_combine_l in Hin.
      rewrite Forall_forall in Ht. apply Ht. exact Hin. }
    clear Ht E. induction H as [|[m x] m' ps ms Hm _ IH]; constructor.
    + apply Forall_inv in Hc. simpl in Hc.
      destruct (nth_error m j) as [r|] eqn:Hr; [|discriminate].
      cbn [obind] in Hm. inversion Hm; subst m'.
      assert (Hj : (j < length m)%nat)
        by (apply nth_error_Some; congruence).
      rewrite length_app, length_firstn. cbn [length].
      change (match m with [] => [] | _ :: l => skipn j l end)
        with (skipn (S j) m).
      rewrite length_skipn. lia.
    + apply IH. apply Forall_inv_tail in Hc. exact Hc.
Qed.

Lemma slice_last_shape (n a : nat) (t : list matrix) (idx : nat) :
  length t = n -> Forall (fun m => length m = a) t ->
  shape n a (slice_last t idx).
Proof.
  intros Hn Ht. unfold slice_last. split.
  - rewrite length_map. exact Hn.
  - apply Forall_map. eapply Forall_impl; [|exact Ht].
    intros m Hm. rewrite length_map. exact Hm.
Qed.

Lemma slice_last_Forall (Q : R -> Prop) (a b : nat) (t : list matrix)
    (idx : nat) :
  (idx < b)%nat -> Forall (shape a b) t -> Forall (Forall (Forall Q)) t ->
  Forall (Forall Q) (slice_last t idx).
Proof.
  intros Hidx Hshape HQ. unfold slice_last.
  apply Forall_map. rewrite Forall_forall in *.
  intros m Hm. apply Forall_map.
  specialize (Hshape m Hm). destruct Hshape as [_ Hrows].
  specialize (HQ m Hm). rewrite Forall_forall in *.
  intros r Hr. specialize (Hrows r Hr). specialize (HQ r Hr).
  rewrite Forall_forall in HQ. apply HQ. apply nth_In. lia.
Qed.

Lemma concat_length_shape (r c : nat) (m : matrix) :
  shape r c m -> length (concat m) = (r * c)%nat.
Proof.
  intros [Hr Hc]. subst r.
  induction Hc as [|row m Hrow _ IH]; simpl; [reflexivity|].
  rewrite length_app, IH, Hrow. reflexivity.
Qed.

Lemma shape_map (f : R -> R) (r c : nat) (m : matrix) :
  shape r c m -> shape r c (map (map f) m).
Proof.
  intros [Hr Hc]. split; [rewrite length_map; exact Hr|].
  apply Forall_map. eapply Forall_impl; [|exact Hc].
  intros row Hrow. rewrite length_map. exact Hrow.
Qed.

Lemma view3_total (n a b : nat) (t : matrix) :
  shape n (a * b) t -> exists v, view3 n a b t = Some v.
Proof.
  intros H. unfold view3.
  rewrite (concat_length_shape _ _ _ H).
  replace (n * (a * b))%nat with (n * a * b)%nat by lia.
  rewrite Nat.eqb_refl. eexists. reflexivity.
Qed.

Lemma column_total (t : matrix) (j : nat) :
  Forall (fun r => (j < length r)%nat) t ->
  exists v, column t j = Some v /\ length v = length t.
Proof.
  unfold column. induction 1 as [|r t Hr _ IH]; simpl.
  - exists []. split; reflexivity.
  - destruct IH as (v & Hv & Hlen).
    destruct (nth_error r j) as [x|] eqn:Hx.
    + cbn [obind]. rewrite Hv. cbn [obind]. exists (x :: v).
      split; [reflexivity | simpl; congruence].
    + apply nth_error_None in Hx. lia.
Qed.

Lemma vmul_total (u v : vector) :
  length u = length v ->
  exists w, vmul u v = Some w /\ length w = length u.
Proof.
  intros H. unfold vmul. rewrite H, Nat.eqb_refl. eexists.
  split; [reflexivity|]. rewrite map2_length. lia.
Qed.

Lemma vplus_total (u v : vector) :
  length u = length v ->
  exists w, vplus u v = Some w /\ length w = length u.
Proof.
  intros H. unfold vplus. rewrite H, Nat.eqb_refl. eexists.
  split; [reflexivity|]. rewrite map2_length. lia.
Qed.

Lemma add_to_row_total (j : nat) (t : list matrix) (v : vector) :
  length t = length v ->
  Forall (fun m => (j < length m)%nat) t ->
  exists t', add_to_row j t v = Some t'.
Proof.
  intros Hlen Ht. unfold add_to_row. rewrite Hlen, Nat.eqb_refl.
  clear Hlen. revert v. induction Ht as [|m t Hm _ IH]; intros v.
  - exists []. reflexivity.
  - destruct v as [|x v]; [exists []; reflexivity|].
    destruct (IH v) as [t' Ht']. cbn [combine mapM].
    destruct (nth_error m j) as [r|] eqn:Hr.
    + cbn [obind]. rewrite Ht'. cbn [obind]. eexists. reflexivity.
    + apply nth_error_None in Hr. lia.
Qed.

End Tensors.

Example roll1_rows : roll1 [[1]; [2]; [3]] = [[3]; [1]; [2]].
Proof. reflexivity. Qed.

Example view3_row_major :
  view3 1 3 2 [[1; 2; 3; 4; 5; 6]] = Some [[[1; 2]; [3; 4]; [5; 6]]].
Proof. reflexivity. Qed.

Example slice_last_first_component :
  slice_last [[[1; 2]; [3; 4]; [5; 6]]] 0 = [[1; 3; 5]].
Proof. reflexivity. Qed.

Example permute_201_axes :
  permute_201 [[[1; 2]]; [[3; 4]]] = [[[1]; [3]]; [[2]; [4]]].
Proof. reflexivity. Qed.

Example view_rows_refuses : view_rows 2 [1; 2; 3] = None.
Proof. reflexivity. Qed.

Example zero_first_empty : zero_first [] = None.
Proof. reflexivity. Qed.

Section Block.
Context {L : Library}.
Local Open Scope torch_scope.

(** C7: with [pre_norm] the block is the residual connection around
    attention-after-normalization followed by the residual connection
    around MLP-after-normalization; without it the block is the residual
    connection around attention, the normalization of that sum, the
    residual connection around the MLP, and the normalization of that
    sum. *)
Theorem block_forward_residual
    (self : StructuredTransformerEncoderBlock) (features : matrix)
    (structure : orientation_structure) :
  same (StructuredTransformerEncoderBlock_forward self features structure)
       (if blk_pre_norm self then
          out <- residual (blk_dropout self)
                   (fun x => normed <- blk_bn self x ;;
                             blk_attention self normed normed structure)
                   features ;;
          residual (blk_dropout self)
            (fun x => normed <- blk_local_bn self x ;; blk_local self normed)
            out
        else
          out <- residual (blk_dropout self)
                   (fun x => blk_attention self x x structure) features ;;
          out <- blk_bn self out ;;
          out <- residual (blk_dropout self) (blk_local self) out ;;
          blk_local_bn self out).
Proof.
  intros g. unfold StructuredTransformerEncoderBlock_forward, residual.
  destruct (blk_pre_norm self); unfold bind, ret.
  - destruct (blk_bn self features g) as [[normed g1]|]; [|reflexivity].
    destruct (blk_attention self normed normed structure g1) as [[a g2]|];
      [|reflexivity].
    destruct (blk_dropout self a g2) as [[d g3]|]; [|reflexivity].
    destruct (blk_local_bn self (madd features d) g3) as [[n g4]|];
      [|reflexivity].
    destruct (blk_local self n g4) as [[l g5]|]; [|reflexivity].
    destruct (blk_dropout self l g5) as [[d' g6]|]; reflexivity.
  - destruct (blk_attention self features features structure g) as [[a g1]|];
      [|reflexivity].
    destruct (blk_dropout self a g1) as [[d g2]|]; [|reflexivity].
    destruct (blk_bn self (madd features d) g2) as [[out g3]|]; [|reflexivity].
    destruct (blk_local self out g3) as [[l g4]|]; [|reflexivity].
    destruct (blk_dropout self l g4) as [[d' g5]|]; [|reflexivity].
    destruct (blk_local_bn self (madd out d') g5) as [[out' g6]|]; reflexivity.
Qed.

Lemma block_init_plain (size : nat) (distance_size : Z)
    (attention_size heads hidden_size mlp_depth : nat)
    (activation : activation_fn) (pre_norm : bool)
    (normalization : layer -> layer) (connected : connected_fn)
    (g g' : rng) (self : StructuredTransformerEncoderBlock) :
  StructuredTransformerEncoderBlock_init size distance_size attention_size
    heads hidden_size mlp_depth activation false None pre_norm normalization
    connected g = Some (self, g') ->
  exists attention local g1,
    connected size distance_size attention_size heads normalization g
    = Some (attention, g1)
    /\ MLP size size hidden_size mlp_depth activation false normalization g1
       = Some (local, g')
    /\ self = {| blk_pre_norm := pre_norm;
                 blk_batch_norm := false;
                 blk_attention := attention;
                 blk_local := local;
                 blk_activation := activation;
                 blk_dropout := fun x => ret x;
                 blk_bn := fun x => ret x;
                 blk_local_bn := fun x => ret x |}.
Proof.
  unfold StructuredTransformerEncoderBlock_init. intros H.
  run_inv H as att ga Hatt. run_inv H as loc gl Hloc. cbn in H.
  inversion H; subst.
  do 3 eexists. split; [eassumption|]. split; [eassumption|]. reflexivity.
Qed.

Lemma plain_forward (pre_norm : bool)
    (attention : attention_module rng orientation_structure)
    (local : module rng) (activation : activation_fn) (features : matrix)
    (structure : orientation_structure) :
  let self := {| blk_pre_norm := pre_norm;
                 blk_batch_norm := false;
                 blk_attention := attention;
                 blk_local := local;
                 blk_activation := activation;
                 blk_dropout := fun x => ret x;
                 blk_bn := fun x => ret x;
                 blk_local_bn := fun x => ret x |} in
  same (StructuredTransformerEncoderBlock_forward self features structure)
       (plain_block self features structure).
Proof.
  intros self g.
  unfold StructuredTransformerEncoderBlock_forward, plain_block, self.
  destruct pre_norm; cbn; unfold bind, ret.
  - destruct (attention features features structure g) as [[a g1]|];
      [|reflexivity].
    destruct (local (madd features a) g1) as [[l g2]|]; reflexivity.
  - destruct (attention features features structure g) as [[a g1]|];
      [|reflexivity].
    destruct (local (madd features a) g1) as [[l g2]|]; reflexivity.
Qed.

(** C10: two blocks constructed from one state of the generator with
    [batch_norm = False] and [dropout = None], one with [pre_norm = True]
    and one with [pre_norm = False], have the same forward function, and
    it is attention added to the input followed by the MLP added to that
    sum. *)
Theorem block_forward_independent_of_pre_norm
    (size : nat) (distance_size : Z)
    (attention_size heads hidden_size mlp_depth : nat)
    (activation : activation_fn) (normalization : layer -> layer)
    (connected : connected_fn) (g g1 g2 : rng)
    (pre post : StructuredTransformerEncoderBlock) :
  StructuredTransformerEncoderBlock_init size distance_size attention_size
    heads hidden_size mlp_depth activation false None true normalization
    connected g = Some (pre, g1) ->
  StructuredTransformerEncoderBlock_init size distance_size attention_size
    heads hidden_size mlp_depth activation false None false normalization
    connected g = Some (post, g2) ->
  forall (features : matrix) (structure : orientation_structure),
    same (StructuredTransformerEncoderBlock_forward pre features structure)
         (StructuredTransformerEncoderBlock_forward post features structure)
    /\ same (StructuredTransformerEncoderBlock_forward pre features structure)
            (plain_block pre features structure)
    /\ same (StructuredTransformerEncoderBlock_forward post features structure)
            (plain_block post features structure).
Proof.
  intros Hpre Hpost features structure.
  apply block_init_plain in Hpre.
  destruct Hpre as (att & loc & ga & Hatt & Hloc & ->).
  apply block_init_plain in Hpost.
  destruct Hpost as (att' & loc' & ga' & Hatt' & Hloc' & ->).
  rewrite Hatt in Hatt'. inversion Hatt'; subst att' ga'.
  rewrite Hloc in Hloc'. inversion Hloc'; subst loc' g2.
  split; [|split].
  - intros s.
    rewrite (plain_forward true att loc activation features structure s).
    rewrite (plain_forward false att loc activation features structure s).
    reflexivity.
  - apply plain_forward.
  - apply plain_forward.
Qed.

End Block.

Lemma block_forward_independent_of_pre_norm_witness :
  same (StructuredTransformerEncoderBlock_forward (example_block true) [[1; 2]] tt)
       (StructuredTransformerEncoderBlock_forward (example_block false) [[1; 2]] tt)
  /\ same (StructuredTransformerEncoderBlock_forward (example_block true) [[1; 2]] tt)
          (plain_block (example_block true) [[1; 2]] tt)
  /\ same (StructuredTransformerEncoderBlock_forward (example_block false) [[1; 2]] tt)
          (plain_block (example_block false) [[1; 2]] tt).
Proof.
  apply (@block_forward_independent_of_pre_norm example_library
           2 3%Z 4 1 4 1 tt (fun x => x) example_connected tt tt tt
           (example_block true) (example_block false));
    reflexivity.
Defined.

Section Encoder.
Context {L : Library}.
Local Open Scope torch_scope.

Lemma replicateM_length {A : Type} (n : nat) (m : M rng A) (g g' : rng)
    (l : list A) :
  replicateM n m g = Some (l, g') -> length l = n.
Proof.
  revert g g' l. induction n as [|n IH]; intros g g' l H; simpl in H.
  - apply ret_Some in H. destruct H as [-> _]. reflexivity.
  - run_inv H as a g1 Ha. run_inv H as rest g2 Hrest.
    apply ret_Some in H. destruct H as [-> _].
    simpl. f_equal. eapply IH. eassumption.
Qed.

Lemma in_sequence_run_blocks (blocks : list StructuredTransformerEncoderBlock)
    (structure : orientation_structure) (start : M rng matrix) :
  same (in_sequence blocks structure start)
       (out <- start ;; run_blocks blocks out structure).
Proof.
  revert start. induction blocks as [|block rest IH]; intros start; simpl.
  - intros g. symmetry. apply bind_ret_r.
  - unfold in_sequence in *. simpl.
    eapply same_trans; [apply IH|].
    apply bind_assoc.
Qed.

(** C6: an encoder built by [__init__] holds the linear layer
    [nn.Linear(in_size, size)] and exactly [depth] blocks, in the order in
    which they were constructed, and its [forward] is the linear layer
    followed by the blocks one after the other in that order. *)
Theorem encoder_forward_sequential
    (in_size size : nat) (distance_size : Z)
    (attention_size heads hidden_size depth mlp_depth : nat)
    (dropout : option R) (activation : activation_fn)
    (batch_norm pre_norm : bool) (normalization : layer -> layer)
    (connected : connected_fn) (g g' : rng)
    (self : StructuredTransformerEncoder) :
  StructuredTransformerEncoder_init in_size size distance_size attention_size
    heads hidden_size depth mlp_depth dropout activation batch_norm pre_norm
    normalization connected g = Some (self, g') ->
  length (enc_blocks self) = depth
  /\ in_features (enc_preprocessor self) = in_size
  /\ out_features (enc_preprocessor self) = size
  /\ (exists g1,
        nn_Linear in_size size g = Some (enc_preprocessor self, g1)
        /\ replicateM depth
             (StructuredTransformerEncoderBlock_init size distance_size
                attention_size heads hidden_size mlp_depth activation
                batch_norm dropout pre_norm normalization connected) g1
           = Some (enc_blocks self, g'))
  /\ forall (features : matrix) (structure : orientation_structure),
       same (StructuredTransformerEncoder_forward self features structure)
            (in_sequence (enc_blocks self) structure
               (lift (Linear_forward (enc_preprocessor self) features))).
Proof.
  unfold StructuredTransformerEncoder_init. intros H.
  run_inv H as preprocessor gp Hpre. run_inv H as blocks gb Hblocks.
  apply ret_Some in H. destruct H as [-> ->].
  cbn [enc_blocks enc_preprocessor].
  split; [eapply replicateM_length; eassumption|].
  assert (Hlin := Hpre). unfold nn_Linear in Hlin.
  run_inv Hlin as wb gw Hwb. destruct wb as [w b]. apply ret_Some in Hlin.
  destruct Hlin as [-> _]. cbn [in_features out_features].
  split; [reflexivity|]. split; [reflexivity|].
  split.
  - exists gp. split; assumption.
  - intros features structure s. symmetry.
    apply in_sequence_run_blocks.
Qed.

End Encoder.

Lemma encoder_forward_sequential_witness :
  exists self : @StructuredTransformerEncoder example_library,
    @StructuredTransformerEncoder_init example_library
      3 2 5%Z 4 1 4 2 1 None tt false true (fun x => x) example_connected tt
    = Some (self, tt)
    /\ length (enc_blocks self) = 2%nat
    /\ in_features (enc_preprocessor self) = 3%nat
    /\ out_features (enc_preprocessor self) = 2%nat
    /\ (exists g1,
          @nn_Linear example_library 3 2 tt = Some (enc_preprocessor self, g1)
          /\ replicateM 2
               (@StructuredTransformerEncoderBlock_init example_library
                  2 5%Z 4 1 4 1 tt
                  false None true (fun x => x) example_connected) g1
             = Some (enc_blocks self, tt))
    /\ forall (features : matrix) (structure : unit),
         same (StructuredTransformerEncoder_forward self features structure)
              (in_sequence (enc_blocks self) structure
                 (lift (Linear_forward (enc_preprocessor self) features))).
Proof.
  eexists. split; [reflexivity|].
  apply (@encoder_forward_sequential example_library
           3 2 5%Z 4 1 4 2 1 None tt false true (fun x => x)
           example_connected tt tt).
  reflexivity.
Defined.

(** *** ProteinTransformer *)

Section Activations.

Lemma sigmoid_bounds (x : R) : 0 < sigmoid x < 1.
Proof.
  unfold sigmoid. pose proof (exp_pos (- x)) as He.
  split.
  - apply Rdiv_lt_0_compat; lra.
  - apply (Rmult_lt_reg_r (1 + exp (- x))); [lra|].
    unfold Rdiv. rewrite Rmult_assoc, Rinv_l by lra. lra.
Qed.

Lemma sum_exp_pos (v : vector) : v <> [] -> 0 < sum (map exp v).
Proof.
  induction v as [|x v IH]; [congruence|]. intros _. simpl.
  pose proof (exp_pos x) as Hx.
  destruct v as [|y v]; [simpl; lra|].
  assert (0 < sum (map exp (y :: v))) by (apply IH; discriminate).
  unfold sum in *. lra.
Qed.

Lemma sum_div (s : R) (e : vector) :
  sum (map (fun x => x / s) e) = sum e / s.
Proof.
  induction e as [|x e IH]; simpl.
  - unfold Rdiv. ring.
  - unfold sum in *. rewrite IH. unfold Rdiv. ring.
Qed.

Lemma softmax_length (v : vector) : length (softmax v) = length v.
Proof. unfold softmax. rewrite !length_map. reflexivity. Qed.

Lemma softmax_nonneg (v : vector) : Forall (fun w => 0 <= w) (softmax v).
Proof.
  destruct v as [|x v]; [constructor|].
  assert (Hs : 0 < sum (map exp (x :: v))) by (apply sum_exp_pos; discriminate).
  unfold softmax. apply Forall_map, Forall_map, Forall_forall.
  intros y _. left. apply Rdiv_lt_0_compat; [apply exp_pos | exact Hs].
Qed.

Lemma softmax_sum (v : vector) : v <> [] -> sum (softmax v) = 1.
Proof.
  intros Hv. pose proof (sum_exp_pos v Hv) as Hs.
  unfold softmax. rewrite sum_div. field. lra.
Qed.

End Activations.

Section Protein.
Context {L : Library}.
Local Open Scope torch_scope.

Lemma nn_Linear_shape (i o : nat) (g g' : rng) (l : Linear) :
  nn_Linear i o g = Some (l, g') -> in_features l = i /\ out_features l = o.
Proof.
  unfold nn_Linear. intros H. run_inv H as wb gw Hwb. destruct wb as [w b].
  apply ret_Some in H. destruct H as [-> _]. split; reflexivity.
Qed.

(** The shapes that [ProteinTransformer.__init__] fixes. *)
Lemma protein_init_shapes
    (in_size size : nat) (distance_size : Z) (mix attention_size heads
     hidden_size mlp_depth depth : nat) (max_distance : R)
    (distance_kernels : Z) (neighbours : nat) (activation : activation_fn)
    (batch_norm conditional angles : bool) (dropout : option R)
    (connected : connected_fn) (normalization : layer -> layer)
    (g g' : rng) (self : ProteinTransformer) :
  ProteinTransformer_init in_size size distance_size mix attention_size heads
    hidden_size mlp_depth depth max_distance distance_kernels neighbours
    activation batch_norm conditional angles dropout connected normalization g
  = Some (self, g') ->
  pt_mix self = mix
  /\ in_features (pt_preprocess self) = 6%nat
  /\ out_features (pt_preprocess self) = size
  /\ out_features (pt_log_concentration self) = (3 * mix)%nat
  /\ out_features (pt_weights self) = mix
  /\ out_features (pt_factor self) = 3%nat
  /\ in_features (pt_log_concentration self) = size
  /\ in_features (pt_weights self) = size
  /\ in_features (pt_factor self) = size.
Proof.
  unfold ProteinTransformer_init. intros H.
  run_inv H as encoder g1 Hencoder.
  run_inv H as lookup g2 Hlookup.
  run_inv H as preprocess g3 Hpreprocess.
  run_inv H as mean g4 Hmean.
  run_inv H as log_concentration g5 Hlog.
  run_inv H as weights g6 Hweights.
  run_inv H as factor g7 Hfactor.
  apply ret_Some in H. destruct H as [-> _]. cbn.
  apply nn_Linear_shape in Hpreprocess, Hlog, Hweights, Hfactor.
  intuition.
Qed.

Lemma map2_app_map {A B : Type} (f h : A -> list B) (l : list A) :
  map2 (@app B) (map f l) (map h l) = map (fun a => f a ++ h a) l.
Proof.
  induction l as [|a l IH]; simpl; [reflexivity|]. rewrite IH. reflexivity.
Qed.

Lemma Forall_removelast {A : Type} (Q : A -> Prop) (l : list A) :
  Forall Q l -> Forall Q (removelast l).
Proof.
  induction 1 as [|a l Ha Hl IH]; simpl; [constructor|].
  destruct l; [constructor|]. constructor; assumption.
Qed.

Lemma nth_error_removelast {A : Type} (l : list A) (i : nat) :
  (S i < length l)%nat -> nth_error (removelast l) i = nth_error l i.
Proof.
  revert i. induction l as [|a l IH]; intros i Hi; simpl in Hi; [lia|].
  destruct l as [|b l]; [simpl in Hi; lia|].
  change (removelast (a :: b :: l)) with (a :: removelast (b :: l)).
  destruct i as [|i]; [reflexivity|].
  change (nth_error (removelast (b :: l)) i = nth_error (b :: l) i).
  apply IH. simpl in *. lia.
Qed.

Lemma last_In {A : Type} (l : list A) (d : A) : l <> [] -> In (last l d) l.
Proof.
  induction l as [|a l IH]; [congruence|]. intros _.
  destruct l as [|b l]; [left; reflexivity|].
  right. apply IH. discriminate.
Qed.

(** The features made from well-shaped angles, written out. *)
Lemma angle_features_eq (self : ProteinTransformer) (angles : matrix) :
  in_features (pt_preprocess self) = 6%nat ->
  angles <> [] ->
  Forall (fun r => length r = 3%nat) angles ->
  angle_features self angles
  = Some (map (fun r => Linear_row (pt_preprocess self) (sin_cos r))
              ([0; 0; 0] :: removelast angles)).
Proof.
  intros Hin Hne Hrows. unfold angle_features.
  destruct angles as [|a0 rest]; [congruence|].
  unfold roll1, zero_first. cbn [obind].
  set (zero := map (fun _ => 0) (last (a0 :: rest) a0)).
  set (prev := removelast (a0 :: rest)).
  assert (Hzero : zero = [0; 0; 0]).
  { unfold zero.
    assert (Hl : length (last (a0 :: rest) a0) = 3%nat).
    { rewrite Forall_forall in Hrows. apply Hrows. apply last_In. discriminate. }
    destruct (last (a0 :: rest) a0) as [|x [|y [|z [|w l]]]];
      simpl in Hl; try discriminate; reflexivity. }
  rewrite Hzero.
  unfold cat_dim1, cat1. cbn [fold_left obind].
  rewrite !length_map, Nat.eqb_refl.
  rewrite map2_app_map. cbn [obind].
  rewrite Linear_forward_rows.
  - rewrite map_map. reflexivity.
  - apply Forall_map. rewrite Hin. constructor; [reflexivity|].
    eapply Forall_impl; [|apply Forall_removelast; exact Hrows].
    intros r Hr. cbv beta in Hr. rewrite length_app, !length_map. lia.
Qed.

(** What a successful run of the heads has computed. *)
Lemma mixture_heads_Some (self : ProteinTransformer) (angles encoding : matrix)
    (g g' : rng) (weights : matrix) (parameters : list (matrix * matrix)) :
  mixture_heads self angles encoding g = Some ((weights, parameters), g') ->
  exists (mean activated : list matrix) (logits log_concentration : matrix),
    length mean = length encoding
    /\ Forall (fun m => length m = 3%nat) mean
    /\ Linear_forward (pt_log_concentration self) encoding = Some log_concentration
    /\ view3 (length encoding) 3 (pt_mix self)
         (map (map sigmoid) log_concentration) = Some activated
    /\ Linear_forward (pt_weights self) encoding = Some logits
    /\ weights = map softmax logits
    /\ parameters
       = map (fun idx =>
                (slice_last mean idx,
                 slice_last
                   (map (map (map (fun s => 0.1 + 1000 * s))) activated) idx))
             (seq 0 (pt_mix self)).
Proof.
  unfold mixture_heads. intros H.
  run_inv H as mean0 g1 Hmean0.
  run_inv H as mean1 g2 Hmean1. apply lift_Some in Hmean1.
  destruct Hmean1 as [Hmean1 ->].
  run_inv H as factor g3 Hfactor.
  run_inv H as mean2 g4 Hmean2. apply lift_Some in Hmean2.
  destruct Hmean2 as [Hmean2 ->].
  run_inv H as mean3 g5 Hmean3. apply lift_Some in Hmean3.
  destruct Hmean3 as [Hmean3 ->].
  run_inv H as lc g6 Hlc. apply lift_Some in Hlc. destruct Hlc as [Hlc ->].
  run_inv H as activated g7 Hact. apply lift_Some in Hact.
  destruct Hact as [Hact ->].
  run_inv H as logits g8 Hlogits. apply lift_Some in Hlogits.
  destruct Hlogits as [Hlogits ->].
  apply ret_Some in H. destruct H as [H _]. inversion H; subst. clear H.
  apply view3_shape in Hmean1. destruct Hmean1 as [Hlen1 Hshape1].
  assert (Hrows1 : Forall (fun m : matrix => length m = 3%nat) mean1).
  { eapply Forall_impl; [|exact Hshape1]. intros m [Hm _]. exact Hm. }
  assert (H2 : length mean2 = length mean1
               /\ Forall (fun m : matrix => length m = 3%nat) mean2).
  { destruct (column factor 0) as [f0|]; [|discriminate]. cbn [obind] in Hmean2.
    destruct (column angles 0) as [a0|]; [|discriminate]. cbn [obind] in Hmean2.
    destruct (vmul f0 a0) as [shift|]; [|discriminate]. cbn [obind] in Hmean2.
    destruct (add_to_row_shape 1 3 _ _ _ Hmean2) as [Hl Hr]. auto. }
  destruct H2 as [Hlen2 Hrows2].
  assert (H3 : length mean3 = length mean2
               /\ Forall (fun m : matrix => length m = 3%nat) mean3).
  { destruct (column factor 1) as [f1|]; [|discriminate]. cbn [obind] in Hmean3.
    destruct (column angles 0) as [a0|]; [|discriminate]. cbn [obind] in Hmean3.
    destruct (vmul f1 a0) as [s1|]; [|discriminate]. cbn [obind] in Hmean3.
    destruct (column factor 2) as [f2|]; [|discriminate]. cbn [obind] in Hmean3.
    destruct (column angles 1) as [a1|]; [|discriminate]. cbn [obind] in Hmean3.
    destruct (vmul f2 a1) as [s2|]; [|discriminate]. cbn [obind] in Hmean3.
    destruct (vplus s1 s2) as [shift|]; [|discriminate]. cbn [obind] in Hmean3.
    destruct (add_to_row_shape 2 3 _ _ _ Hmean3) as [Hl Hr]. auto. }
  destruct H3 as [Hlen3 Hrows3].
  exists mean3, activated, logits, lc.
  repeat (split; [first [assumption | reflexivity | congruence]|]).
  reflexivity.
Qed.

(** C9: every concentration that the heads of [forward] (lines 139 to
    153) return lies strictly between 0.1 and 1000.1, for every encoding
    they are given. *)
Theorem concentration_bounds (self : ProteinTransformer)
    (angles encoding : matrix) (g g' : rng) (weights : matrix)
    (parameters : list (matrix * matrix)) :
  mixture_heads self angles encoding g = Some ((weights, parameters), g') ->
  Forall (fun '(_, concentration) =>
            Forall (Forall (fun c => 0.1 < c < 1000.1)) concentration)
         parameters.
Proof.
  intros H. apply mixture_heads_Some in H.
  destruct H as (mean & activated & logits & lc & _ & _ & Hlc & Hact & _ & _ & ->).
  apply Forall_map, Forall_forall. intros idx Hidx.
  apply in_seq in Hidx.
  pose proof (view3_shape _ _ _ _ _ Hact) as [_ Hshape].
  assert (Hsig : Forall (Forall (Forall (fun s => 0 < s < 1))) activated).
  { eapply view3_Forall; [|exact Hact].
    apply Forall_map, Forall_forall. intros r _.
    apply Forall_map, Forall_forall. intros x _. apply sigmoid_bounds. }
  apply (slice_last_Forall _ 3 (pt_mix self)); [lia| |].
  - apply Forall_map. eapply Forall_impl; [|exact Hshape].
    intros m [Hm Hr]. split; [rewrite length_map; exact Hm|].
    apply Forall_map. eapply Forall_impl; [|exact Hr].
    intros r Hlen. rewrite length_map. exact Hlen.
  - apply Forall_map. eapply Forall_impl; [|exact Hsig].
    intros m Hm. apply Forall_map. eapply Forall_impl; [|exact Hm].
    intros r Hr. apply Forall_map. eapply Forall_impl; [|exact Hr].
    intros s Hs. cbv beta in Hs. lra.
Qed.

(** [self.orientations] raises on every tensor: either [orientation]
    raises, or it returns an array that has no [permute]. *)
Lemma orientations_fails (self : ProteinTransformer) (tertiary : list matrix) :
  orientations self tertiary = None.
Proof.
  unfold orientations.
  match goal with
  | |- obind ?m _ = None => destruct m as [pos|]; [|reflexivity]
  end.
  cbn [obind].
  destruct (orientation (transpose pos)) as [ors|]; reflexivity.
Qed.

(** C4: [forward] returns on no input.  Line 126 calls
    [self.orientations], which raises, before the encoder and the heads
    are reached; so no weights and no parameters come back. *)
Theorem forward_never_returns {subgraph_t : Type} (self : ProteinTransformer)
    (angles : matrix) (tertiary : list matrix) (structure : structure)
    (subgraph : subgraph_t) (g : rng) :
  ProteinTransformer_forward self angles tertiary structure subgraph g = None.
Proof.
  unfold ProteinTransformer_forward, bind at 1.
  destruct (lift (angle_features self angles) g) as [[features g1]|];
    [|reflexivity].
  unfold orientation_features, bind at 1.
  unfold lift at 1. rewrite orientations_fails. reflexivity.
Qed.

Lemma length_removelast {A : Type} (l : list A) :
  length (removelast l) = Nat.pred (length l).
Proof.
  rewrite removelast_firstn_len, length_firstn. lia.
Qed.

Section Constructed.
Variables (in_size size : nat) (distance_size : Z)
          (mix attention_size heads hidden_size mlp_depth depth : nat)
          (max_distance : R) (distance_kernels : Z) (neighbours : nat)
          (activation : activation_fn) (batch_norm conditional angles_flag : bool)
          (dropout : option R) (connected : connected_fn)
          (normalization : layer -> layer).
Variables (g0 g1 : rng) (self : ProteinTransformer).
Hypothesis constructed :
  ProteinTransformer_init in_size size distance_size mix attention_size heads
    hidden_size mlp_depth depth max_distance distance_kernels neighbours
    activation batch_norm conditional angles_flag dropout connected
    normalization g0
  = Some (self, g1).

(** C5: for a model built by [__init__] and angles of [n >= 1] rows of
    three, the features given to the encoder are: at position 0 the
    projection ([self.preprocess]) of the sines and cosines of three zero
    angles; at position [i + 1] the projection of the sines and cosines of
    the angles at position [i].  So the features at a position are the same
    for two inputs that agree at all earlier positions. *)
Theorem angle_features_previous_position (angles : matrix) :
  angles <> [] ->
  Forall (fun r => length r = 3%nat) angles ->
  exists features,
    angle_features self angles = Some features
    /\ length features = length angles
    /\ nth_error features 0
       = Some (Linear_row (pt_preprocess self) (sin_cos [0; 0; 0]))
    /\ (forall i row,
          (S i < length angles)%nat -> nth_error angles i = Some row ->
          nth_error features (S i)
          = Some (Linear_row (pt_preprocess self) (sin_cos row)))
    /\ (forall angles' i,
          angles' <> [] ->
          Forall (fun r => length r = 3%nat) angles' ->
          (i < length angles)%nat -> (i < length angles')%nat ->
          (forall k, (k < i)%nat -> nth_error angles' k = nth_error angles k) ->
          exists features',
            angle_features self angles' = Some features'
            /\ nth_error features' i = nth_error features i)
    /\ (forall (subgraph_t : Type) (tertiary : list matrix)
               (structure : structure) (subgraph : subgraph_t),
          same (ProteinTransformer_forward self angles tertiary structure subgraph)
               (relative_structure <- orientation_features self tertiary structure ;;
                encoding <- StructuredTransformerEncoder_forward
                              (pt_encoder self) features relative_structure ;;
                mixture_heads self angles encoding)).
Proof.
  intros Hne Hrows.
  destruct (protein_init_shapes _ _ _ _ _ _ _ _ _ _ _ _ _ _ _ _ _ _ _ _ _ _
              constructed) as (_ & Hin & _).
  pose proof (angle_features_eq self angles Hin Hne Hrows) as Hfeat.
  set (project := fun r => Linear_row (pt_preprocess self) (sin_cos r)) in *.
  assert (Hnext : forall (a : matrix) i row,
             (S i < length a)%nat -> nth_error a i = Some row ->
             nth_error (map project ([0; 0; 0] :: removelast a)) (S i)
             = Some (project row)).
  { intros a i row Hi Hrow. cbn [map nth_error].
    rewrite nth_error_map, nth_error_removelast by exact Hi.
    exact (f_equal (option_map project) Hrow). }
  eexists. split; [exact Hfeat|].
  split; [|split; [|split; [|split]]].
  - cbn [map length]. rewrite length_map, length_removelast.
    destruct angles; [congruence | reflexivity].
  - reflexivity.
  - intros i row Hi Hrow. exact (Hnext angles i row Hi Hrow).
  - intros angles' i Hne' Hrows' Hi Hi' Hagree.
    eexists. split; [apply (angle_features_eq self angles' Hin Hne' Hrows')|].
    fold project.
    destruct i as [|i]; [reflexivity|].
    destruct (nth_error angles i) as [row|] eqn:Hrow.
    + transitivity (Some (project row)).
      * apply (Hnext angles' i row Hi').
        rewrite Hagree by lia. exact Hrow.
      * symmetry. exact (Hnext angles i row Hi Hrow).
    + apply nth_error_None in Hrow. lia.
  - intros subgraph_t tertiary structure subgraph s.
    unfold ProteinTransformer_forward. unfold bind at 1.
    rewrite Hfeat. reflexivity.
Qed.

(** The heads do return: when the encoding has one row of [size] entries
    per row of angles, every row of angles holds at least two, and
    [AngleProject] hands back [3 * mix] entries per row. *)
Lemma mixture_heads_returns (angles encoding projected : matrix) (g gc : rng) :
  Forall (fun r => (2 <= length r)%nat) angles ->
  shape (length angles) size encoding ->
  pt_mean self encoding g = Some (projected, gc) ->
  shape (length angles) (3 * mix) projected ->
  exists weights parameters,
    mixture_heads self angles encoding g = Some ((weights, parameters), gc).
Proof.
  intros Hrows Henc Hprojected Hproj.
  destruct (protein_init_shapes _ _ _ _ _ _ _ _ _ _ _ _ _ _ _ _ _ _ _ _ _ _
              constructed)
    as (Hm & _ & _ & Hlo & Hwo & Hfo & Hli & Hwi & Hfi).
  destruct Henc as [Hn Hwidth].
  assert (Hin : forall l, in_features l = size ->
                 Forall (fun r : vector => length r = in_features l) encoding).
  { intros l Hl. rewrite Hl. exact Hwidth. }
  destruct (view3_total (length angles) 3 mix projected Hproj) as [mean1 Hmean1].
  pose proof (view3_shape _ _ _ _ _ Hmean1) as [Hlen1 Hshape1].
  assert (Hrows1 : Forall (fun m : matrix => length m = 3%nat) mean1).
  { eapply Forall_impl; [|exact Hshape1]. intros m [H3 _]. exact H3. }
  pose proof (Linear_forward_rows _ _ (Hin _ Hfi)) as Hfactor.
  set (factor := map (Linear_row (pt_factor self)) encoding) in Hfactor.
  assert (Hcol : forall j, (j < 3)%nat ->
            exists v, column factor j = Some v /\ length v = length angles).
  { intros j Hj. destruct (column_total factor j) as (v & Hv & Hlen).
    - unfold factor. apply Forall_map, Forall_forall. intros r _.
      rewrite Linear_row_length, Hfo. exact Hj.
    - exists v. split; [exact Hv|]. rewrite Hlen. unfold factor.
      rewrite length_map. exact Hn. }
  assert (Hangles : forall j, (j < 2)%nat ->
            exists v, column angles j = Some v /\ length v = length angles).
  { intros j Hj. apply column_total.
    eapply Forall_impl; [|exact Hrows]. intros r Hr. cbv beta in Hr. lia. }
  destruct (Hcol 0%nat ltac:(lia)) as (f0 & Hf0 & Lf0).
  destruct (Hcol 1%nat ltac:(lia)) as (f1 & Hf1 & Lf1).
  destruct (Hcol 2%nat ltac:(lia)) as (f2 & Hf2 & Lf2).
  destruct (Hangles 0%nat ltac:(lia)) as (a0 & Ha0 & La0).
  destruct (Hangles 1%nat ltac:(lia)) as (a1 & Ha1 & La1).
  destruct (vmul_total f0 a0 ltac:(congruence)) as (s0 & Hs0 & Ls0).
  destruct (add_to_row_total 1 mean1 s0) as [mean2 Hmean2].
  { congruence. }
  { eapply Forall_impl; [|exact Hrows1]. intros m H3. cbv beta in H3. lia. }
  assert (Hstep2 : (f0 <- column factor 0 ;;
                    a0 <- column angles 0 ;;
                    shift <- vmul f0 a0 ;;
                    add_to_row 1 mean1 shift)%error = Some mean2).
  { rewrite Hf0. cbn [obind]. rewrite Ha0. cbn [obind]. rewrite Hs0. exact Hmean2. }
  destruct (add_to_row_shape 1 3 _ _ _ Hmean2) as [Hlen2 Hkeep2].
  specialize (Hkeep2 Hrows1).
  destruct (vmul_total f1 a0 ltac:(congruence)) as (s1 & Hs1 & Ls1).
  destruct (vmul_total f2 a1 ltac:(congruence)) as (s2 & Hs2 & Ls2).
  destruct (vplus_total s1 s2 ltac:(congruence)) as (s12 & Hs12 & Ls12).
  destruct (add_to_row_total 2 mean2 s12) as [mean3 Hmean3].
  { congruence. }
  { eapply Forall_impl; [|exact Hkeep2]. intros m H3. cbv beta in H3. lia. }
  assert (Hstep3 : (f1 <- column factor 1 ;;
                    a0 <- column angles 0 ;;
                    s1 <- vmul f1 a0 ;;
                    f2 <- column factor 2 ;;
                    a1 <- column angles 1 ;;
                    s2 <- vmul f2 a1 ;;
                    shift <- vplus s1 s2 ;;
                    add_to_row 2 mean2 shift)%error = Some mean3).
  { rewrite Hf1. cbn [obind]. rewrite Ha0. cbn [obind]. rewrite Hs1.
    cbn [obind]. rewrite Hf2. cbn [obind]. rewrite Ha1. cbn [obind].
    rewrite Hs2. cbn [obind]. rewrite Hs12. exact Hmean3. }
  pose proof (Linear_forward_rows _ _ (Hin _ Hli)) as Hlogits.
  destruct (view3_total (length angles) 3 mix
              (map (map sigmoid)
                 (map (Linear_row (pt_log_concentration self)) encoding)))
    as [activated Hactivated].
  { apply shape_map. split; [rewrite length_map; exact Hn|].
    apply Forall_map, Forall_forall. intros r _.
    rewrite Linear_row_length. exact Hlo. }
  pose proof (Linear_forward_rows _ _ (Hin _ Hwi)) as Hweights.
  unfold mixture_heads. cbv zeta. rewrite Hm, Hn.
  rewrite (bind_run _ _ _ _ _ Hprojected).
  rewrite (bind_lift _ _ _ _ Hmean1).
  rewrite (bind_lift _ _ _ _ Hfactor).
  rewrite (bind_lift _ _ _ _ Hstep2).
  rewrite (bind_lift _ _ _ _ Hstep3).
  rewrite (bind_lift _ _ _ _ Hlogits).
  rewrite (bind_lift _ _ _ _ Hactivated).
  rewrite (bind_lift _ _ _ _ Hweights).
  eexists. eexists. reflexivity.
Qed.

End Constructed.

End Protein.

(** *** The example model *)

Lemma angle_features_previous_position_witness :
  exists features,
    angle_features example_model example_angles = Some features
    /\ length features = length example_angles
    /\ nth_error features 0
       = Some (Linear_row (pt_preprocess example_model) (sin_cos [0; 0; 0]))
    /\ (forall i row,
          (S i < length example_angles)%nat ->
          nth_error example_angles i = Some row ->
          nth_error features (S i)
          = Some (Linear_row (pt_preprocess example_model) (sin_cos row)))
    /\ (forall angles' i,
          angles' <> [] ->
          Forall (fun r => length r = 3%nat) angles' ->
          (i < length example_angles)%nat -> (i < length angles')%nat ->
          (forall k, (k < i)%nat ->
                     nth_error angles' k = nth_error example_angles k) ->
          exists features',
            angle_features example_model angles' = Some features'
            /\ nth_error features' i = nth_error features i)
    /\ (forall (subgraph_t : Type) (tertiary : list matrix)
               (structure : unit) (subgraph : subgraph_t),
          same (ProteinTransformer_forward example_model example_angles
                  tertiary structure subgraph)
               (Torch.bind (orientation_features example_model tertiary structure)
                  (fun relative_structure =>
                     Torch.bind
                       (StructuredTransformerEncoder_forward
                          (pt_encoder example_model) features relative_structure)
                       (mixture_heads example_model example_angles)))).
Proof.
  apply (@angle_features_previous_position example_library
           6 2 0%Z 2 4 1 4 1 1 20 16%Z 15 tt false false false None
           example_connected (fun x => x) tt tt example_model).
  - reflexivity.
  - discriminate.
  - repeat constructor.
Defined.

Lemma concentration_bounds_witness :
  exists (weights : matrix) (parameters : list (matrix * matrix)),
    mixture_heads example_model [[1; 2; 3]] [[1; 1]] tt
    = Some ((weights, parameters), tt)
    /\ parameters <> []
    /\ Forall (fun '(_, concentration) =>
                 Forall (Forall (fun c => 0.1 < c < 1000.1)) concentration)
              parameters.
Proof.
  eexists. eexists. split; [cbn; reflexivity|]. split; [discriminate|].
  eapply (@concentration_bounds example_library example_model
            [[1; 2; 3]] [[1; 1]] tt tt).
  cbn. reflexivity.
Defined.

(** On the example: [orientation] returns the frames of the two residues,
    and it is [permute] on them that fails. *)
Example orientations_attribute_error :
  exists pos frames,
    mapM (fun t : matrix => nth_error t 1) example_tertiary = Some pos
    /\ orientation (transpose pos) = Some frames
    /\ permute (Nd3 frames) = None
    /\ orientations example_model example_tertiary = None.
Proof.
  eexists. eexists. split; [reflexivity|].
  split; [cbn; reflexivity|]. split; reflexivity.
Qed.

End TransformerFacts.

(** ** Further results on geometry.py *)

Module GeometryMore.
Import Np Geometry GeometrySpec ListFacts GeometryFacts.

(** A row vector times a matrix. *)
Definition vecmat (v : vector) (m : matrix) : vector :=
  map (dot v) (transpose m).

(** *** Rotations *)

Section SameAxis.
Variables u0 u1 u2 : R.
Hypothesis unit_axis : u0 * u0 + u1 * u1 + u2 * u2 = 1.

Lemma rodrigues_compose (sa ca sb cb : R) :
  matmul (rodrigues u0 u1 u2 sa ca) (rodrigues u0 u1 u2 sb cb)
  = rodrigues u0 u1 u2 (sa * cb + ca * sb) (ca * cb - sa * sb).
Proof.
  unfold rodrigues. cbn.
  repeat (f_equal; try nsatz).
Qed.

Lemma rodrigues_back (s c v0 v1 v2 : R) :
  s * s + c * c = 1 ->
  matvec (rodrigues u0 u1 u2 (- s) c)
         (matvec (rodrigues u0 u1 u2 s c) [v0; v1; v2])
  = [v0; v1; v2].
Proof.
  intros Hsc. unfold rodrigues. cbn.
  repeat (f_equal; try nsatz).
Qed.

Lemma rodrigues_dot (s c v0 v1 v2 w0 w1 w2 : R) :
  s * s + c * c = 1 ->
  dot (matvec (rodrigues u0 u1 u2 s c) [v0; v1; v2])
      (matvec (rodrigues u0 u1 u2 s c) [w0; w1; w2])
  = dot [v0; v1; v2] [w0; w1; w2].
Proof.
  intros Hsc. unfold rodrigues, dot, sum. cbn.
  nsatz.
Qed.

End SameAxis.

Lemma rodrigues_transpose (u0 u1 u2 s c : R) :
  transpose (rodrigues u0 u1 u2 s c) = rodrigues u0 u1 u2 (- s) c.
Proof.
  unfold rodrigues. cbn. repeat (f_equal; try ring).
Qed.

(** Two rotations about one axis compose to the rotation by the sum of the
    angles. *)
Theorem compute_rotation_matrix_compose (a0 a1 a2 alpha beta : R) :
  [a0; a1; a2] <> [0; 0; 0] ->
  exists ra rb rab,
    compute_rotation_matrix [a0; a1; a2] alpha = Some ra
    /\ compute_rotation_matrix [a0; a1; a2] beta = Some rb
    /\ compute_rotation_matrix [a0; a1; a2] (alpha + beta) = Some rab
    /\ matmul ra rb = rab.
Proof.
  intros Hnz.
  pose proof (unit_normalised a0 a1 a2 Hnz) as Hu. cbv zeta in Hu.
  do 3 eexists.
  split; [apply compute_rotation_matrix_eq|].
  split; [apply compute_rotation_matrix_eq|].
  split; [apply compute_rotation_matrix_eq|].
  cbv zeta. rewrite sin_plus, cos_plus.
  apply rodrigues_compose. exact Hu.
Qed.

Lemma compute_rotation_matrix_compose_witness :
  exists ra rb rab,
    compute_rotation_matrix [1; 2; 2] 1 = Some ra
    /\ compute_rotation_matrix [1; 2; 2] 2 = Some rb
    /\ compute_rotation_matrix [1; 2; 2] (1 + 2) = Some rab
    /\ matmul ra rb = rab.
Proof.
  apply (compute_rotation_matrix_compose 1 2 2 1 2).
  intros H. inversion H. lra.
Defined.

(** Rotating by an angle and then by its opposite about the same axis
    gives the vector back; the matrix for the opposite angle is the
    transpose. *)
Theorem compute_rotation_round_trip (v0 v1 v2 a0 a1 a2 angle : R) :
  [a0; a1; a2] <> [0; 0; 0] ->
  exists w rot back,
    compute_rotation [v0; v1; v2] [a0; a1; a2] angle = Some w
    /\ compute_rotation w [a0; a1; a2] (- angle) = Some [v0; v1; v2]
    /\ compute_rotation_matrix [a0; a1; a2] angle = Some rot
    /\ compute_rotation_matrix [a0; a1; a2] (- angle) = Some back
    /\ back = transpose rot.
Proof.
  intros Hnz.
  pose proof (unit_normalised a0 a1 a2 Hnz) as Hu. cbv zeta in Hu.
  pose proof (sin_cos_circle angle) as Hsc.
  unfold compute_rotation.
  rewrite !compute_rotation_matrix_eq. cbv zeta. cbn [obind].
  do 3 eexists.
  split; [reflexivity|].
  split; [|split; [reflexivity|split; [reflexivity|]]].
  - rewrite sin_neg, cos_neg. f_equal.
    apply rodrigues_back; assumption.
  - rewrite sin_neg, cos_neg. symmetry. apply rodrigues_transpose.
Qed.

Lemma compute_rotation_round_trip_witness :
  exists w rot back,
    compute_rotation [3; 4; 5] [1; 2; 2] 1 = Some w
    /\ compute_rotation w [1; 2; 2] (- 1) = Some [3; 4; 5]
    /\ compute_rotation_matrix [1; 2; 2] 1 = Some rot
    /\ compute_rotation_matrix [1; 2; 2] (- 1) = Some back
    /\ back = transpose rot.
Proof.
  apply (compute_rotation_round_trip 3 4 5 1 2 2 1).
  intros H. inversion H. lra.
Defined.

(** A rotation keeps dot products, and so lengths. *)
Theorem compute_rotation_isometry
    (v0 v1 v2 w0 w1 w2 a0 a1 a2 angle : R) :
  [a0; a1; a2] <> [0; 0; 0] ->
  exists v' w',
    compute_rotation [v0; v1; v2] [a0; a1; a2] angle = Some v'
    /\ compute_rotation [w0; w1; w2] [a0; a1; a2] angle = Some w'
    /\ dot v' w' = dot [v0; v1; v2] [w0; w1; w2]
    /\ norm v' = norm [v0; v1; v2].
Proof.
  intros Hnz.
  pose proof (unit_normalised a0 a1 a2 Hnz) as Hu. cbv zeta in Hu.
  pose proof (sin_cos_circle angle) as Hsc.
  unfold compute_rotation.
  rewrite !compute_rotation_matrix_eq. cbv zeta. cbn [obind].
  do 2 eexists. split; [reflexivity|]. split; [reflexivity|].
  split.
  - apply rodrigues_dot; assumption.
  - pose proof (rodrigues_dot _ _ _ Hu _ _ v0 v1 v2 v0 v1 v2 Hsc) as Hd.
    unfold norm.
    set (r := matvec _ _) in *.
    assert (Hr : exists r0 r1 r2, r = [r0; r1; r2]).
    { unfold r, rodrigues. cbn. do 3 eexists. reflexivity. }
    destruct Hr as (r0 & r1 & r2 & Er). rewrite Er in *.
    unfold dot, sum in Hd. cbn in Hd. unfold sum. cbn.
    rewrite Hd. reflexivity.
Qed.

Lemma compute_rotation_isometry_witness :
  exists v' w',
    compute_rotation [3; 4; 5] [1; 2; 2] 1 = Some v'
    /\ compute_rotation [0; 1; 0] [1; 2; 2] 1 = Some w'
    /\ dot v' w' = dot [3; 4; 5] [0; 1; 0]
    /\ norm v' = norm [3; 4; 5].
Proof.
  apply (compute_rotation_isometry 3 4 5 0 1 0 1 2 2 1).
  intros H. inversion H. lra.
Defined.

Lemma norm_scale (k a0 a1 a2 : R) :
  0 <= k -> norm [k * a0; k * a1; k * a2] = k * norm [a0; a1; a2].
Proof.
  intros Hk. unfold norm, sum. cbn.
  replace (k * a0 * (k * a0) + (k * a1 * (k * a1) + (k * a2 * (k * a2) + 0)))
    with ((k * k) * (a0 * a0 + (a1 * a1 + (a2 * a2 + 0)))) by ring.
  rewrite sqrt_mult_alt by nra.
  rewrite sqrt_square by exact Hk. reflexivity.
Qed.

(** Only the direction of the axis matters: a positive multiple of the axis
    gives the same matrix. *)
Theorem compute_rotation_matrix_scale (k a0 a1 a2 angle : R) :
  0 < k ->
  [a0; a1; a2] <> [0; 0; 0] ->
  compute_rotation_matrix (vscale k [a0; a1; a2]) angle
  = compute_rotation_matrix [a0; a1; a2] angle.
Proof.
  intros Hk Hnz. cbn [vscale map].
  rewrite !compute_rotation_matrix_eq. cbv zeta.
  rewrite norm_scale by lra.
  pose proof (norm_pos a0 a1 a2 Hnz) as Hn.
  set (n := norm [a0; a1; a2]) in *.
  replace (k * a0 / (k * n)) with (a0 / n) by (field; lra).
  replace (k * a1 / (k * n)) with (a1 / n) by (field; lra).
  replace (k * a2 / (k * n)) with (a2 / n) by (field; lra).
  reflexivity.
Qed.

Lemma compute_rotation_matrix_scale_witness :
  compute_rotation_matrix (vscale 5 [1; 2; 2]) 1
  = compute_rotation_matrix [1; 2; 2] 1.
Proof.
  apply (compute_rotation_matrix_scale 5 1 2 2 1).
  - lra.
  - intros H. inversion H. lra.
Defined.

(** [compute_rotation_matrix] raises (the [IndexError] of [axis[2]]) exactly
    when the axis has fewer than three components. *)
Theorem compute_rotation_matrix_raises (axis : vector) (angle : R) :
  compute_rotation_matrix axis angle = None <-> (length axis < 3)%nat.
Proof.
  unfold compute_rotation_matrix.
  destruct axis as [|a0 [|a1 [|a2 rest]]]; cbn [vdiv map nth_error obind length].
  - split; [lia | reflexivity].
  - split; [lia | reflexivity].
  - split; [lia | reflexivity].
  - split; [discriminate | lia].
Qed.

(** *** Quaternions *)

(** Past half a turn the conversion returns the opposite quaternion, which
    stands for the same rotation: for [pi < a < 3 pi] the scalar part
    returned is [- cos (a/2)], still positive. *)
Theorem matrix_to_quaternion_antipodal (u0 u1 u2 a : R) :
  norm [u0; u1; u2] = 1 ->
  PI < a < 3 * PI ->
  exists rot,
    compute_rotation_matrix [u0; u1; u2] a = Some rot
    /\ matrix_to_quaternion (Nd2 rot)
       = Some (Nd1 (vneg (cos (a / 2) :: vscale (sin (a / 2)) [u0; u1; u2])))
    /\ 0 < - cos (a / 2).
Proof.
  intros Hn Ha.
  pose proof (norm_one_sq _ _ _ Hn) as Hu.
  assert (Hneg : cos (a / 2) < 0) by (apply cos_lt_0; lra).
  eexists. split; [apply compute_rotation_matrix_eq|].
  cbv zeta. rewrite Hn. rewrite !Rdiv_1_r.
  split; [|lra].
  unfold rodrigues. cbn -[Rdiv].
  rewrite (one_plus_trace u0 u1 u2 a Hu).
  replace (2 * cos (a / 2) * (2 * cos (a / 2)))
    with ((- (2 * cos (a / 2))) * (- (2 * cos (a / 2)))) by ring.
  rewrite sqrt_square by lra.
  assert (Hs : sin a = 2 * sin (a / 2) * cos (a / 2)).
  { replace a with (2 * (a / 2)) at 1 by field. apply sin_2a. }
  rewrite Hs.
  repeat (f_equal; try (field; lra)).
Qed.

Lemma matrix_to_quaternion_antipodal_witness :
  exists rot,
    compute_rotation_matrix [0; 0; 1] (2 * PI) = Some rot
    /\ matrix_to_quaternion (Nd2 rot)
       = Some (Nd1 (vneg (cos (2 * PI / 2)
                          :: vscale (sin (2 * PI / 2)) [0; 0; 1])))
    /\ 0 < - cos (2 * PI / 2).
Proof.
  apply (matrix_to_quaternion_antipodal 0 0 1 (2 * PI)).
  - exact norm_e3.
  - pose proof PI_RGT_0. lra.
Defined.

(** *** Angles *)

Lemma div_sign_neg (y x : R) : x < 0 -> 0 <= y -> y / x <= 0.
Proof.
  intros Hx Hy. unfold Rdiv.
  assert (Hi : / x < 0) by (apply Rinv_lt_0_compat; exact Hx).
  nra.
Qed.

Lemma div_sign_pos (y x : R) : 0 < x -> 0 <= y -> 0 <= y / x.
Proof.
  intros Hx Hy. unfold Rdiv.
  assert (Hi : 0 < / x) by (apply Rinv_0_lt_compat; exact Hx).
  nra.
Qed.

Lemma atan_nonneg (t : R) : 0 <= t -> 0 <= atan t.
Proof.
  intros [Ht|Ht].
  - rewrite <- atan_0. left. apply atan_increasing. exact Ht.
  - subst t. rewrite atan_0. lra.
Qed.

Lemma atan_nonpos (t : R) : t <= 0 -> atan t <= 0.
Proof.
  intros [Ht|Ht].
  - rewrite <- atan_0. left. apply atan_increasing. exact Ht.
  - subst t. rewrite atan_0. lra.
Qed.

Lemma arctan2_range (y x : R) : - PI < arctan2 y x <= PI.
Proof.
  pose proof PI_RGT_0 as Hpi.
  pose proof (atan_bound (y / x)) as [Hlo Hhi].
  unfold arctan2.
  destruct (Rlt_dec 0 x) as [Hx|Hx]; [lra|].
  destruct (Rlt_dec x 0) as [Hx'|Hx'].
  - destruct (Rle_dec 0 y) as [Hy|Hy].
    + pose proof (atan_nonpos _ (div_sign_neg y x Hx' Hy)). lra.
    + assert (Hq : 0 < y / x).
      { replace (y / x) with ((- y) / (- x)) by (field; lra).
        apply Rdiv_lt_0_compat; lra. }
      pose proof (atan_increasing _ _ Hq) as Hinc. rewrite atan_0 in Hinc.
      lra.
  - destruct (Rlt_dec 0 y); [lra|].
    destruct (Rlt_dec y 0); lra.
Qed.

Lemma arctan2_upper (y x : R) : 0 <= y -> 0 <= arctan2 y x <= PI.
Proof.
  intros Hy.
  pose proof PI_RGT_0 as Hpi.
  pose proof (atan_bound (y / x)) as [Hlo Hhi].
  unfold arctan2.
  destruct (Rlt_dec 0 x) as [Hx|Hx].
  - pose proof (atan_nonneg _ (div_sign_pos y x Hx Hy)). lra.
  - destruct (Rlt_dec x 0) as [Hx'|Hx'].
    + destruct (Rle_dec 0 y) as [_|Hy']; [|lra].
      pose proof (atan_nonpos _ (div_sign_neg y x Hx' Hy)). lra.
    + destruct (Rlt_dec 0 y); [lra|].
      destruct (Rlt_dec y 0); lra.
Qed.

Lemma norm_nonzero (a0 a1 a2 : R) :
  [a0; a1; a2] <> [0; 0; 0] -> norm [a0; a1; a2] <> 0.
Proof.
  intros H. pose proof (norm_pos a0 a1 a2 H). lra.
Qed.

(** The angle between two vectors of nonzero length lies between 0 and
    pi. *)
Theorem vector_angle_range (v1 v2 : vector) (angle : R) :
  norm v1 <> 0 -> norm v2 <> 0 ->
  vector_angle v1 v2 = Some angle -> 0 <= angle <= PI.
Proof.
  unfold vector_angle. intros _ _ H.
  destruct (cross (vdiv v1 (norm v1)) (vdiv v2 (norm v2))) as [c|];
    [|discriminate].
  cbn [obind] in H. inversion H; subst.
  apply arctan2_upper. unfold norm. apply sqrt_pos.
Qed.

Lemma vector_angle_range_witness :
  exists angle,
    vector_angle [1; 0; 0] [0; 1; 0] = Some angle /\ 0 <= angle <= PI.
Proof.
  eexists. split; [reflexivity|].
  apply (vector_angle_range [1; 0; 0] [0; 1; 0]).
  - apply norm_nonzero. intros H. inversion H. lra.
  - apply norm_nonzero. intros H. inversion H. lra.
  - reflexivity.
Defined.

(** A dihedral angle about a middle vector of nonzero length lies in
    (-pi, pi]. *)
Lemma compute_dihedral_angle_range (a b c : vector) (dihedral : R) :
  norm b <> 0 ->
  compute_dihedral_angle a b c = Some dihedral -> - PI < dihedral <= PI.
Proof.
  unfold compute_dihedral_angle. intros _ H.
  destruct (cross a b) as [c1|]; [|discriminate]. cbn [obind] in H.
  destruct (cross b c) as [c2|]; [|discriminate]. cbn [obind] in H.
  destruct (cross c1 c2) as [c12|]; [|discriminate]. cbn [obind] in H.
  inversion H; subst. apply arctan2_range.
Qed.

(** *** The P-SEA windows *)

Lemma pymod_small (a m : R) : 0 <= a < m -> pymod a m = a.
Proof.
  intros [Ha Hm]. unfold pymod.
  replace (Int_part (a / m)) with 0%Z.
  - lra.
  - apply Int_part_spec.
    assert (H0 : 0 <= a / m) by (apply div_sign_pos; lra).
    assert (H1 : a / m < 1).
    { apply (Rmult_lt_reg_r m); [lra|].
      unfold Rdiv. rewrite Rmult_assoc, Rinv_l by lra. lra. }
    lra.
Qed.

Lemma dihedral_fits_helix (dihedral : R) :
  dihedral <= PI -> dihedral_fits dihedral (50, 20) = false.
Proof.
  intros H. pose proof PI_RGT_0 as Hpi. unfold dihedral_fits.
  replace (50 - 20 + 180) with 210 by lra.
  rewrite (pymod_small 210 360) by lra.
  rewrite Rltb_false by lra. reflexivity.
Qed.

Lemma dihedral_fits_sheet (dihedral : R) :
  dihedral_fits dihedral (-170, 45) = false.
Proof.
  pose proof PI_RGT_0 as Hpi. unfold dihedral_fits.
  replace (-170 - 45 + 180) with (-35) by lra.
  replace (-170 + 45 + 180) with 55 by lra.
  rewrite pymod_negative, (pymod_small 55 360) by lra.
  unfold Rltb.
  destruct (Rlt_dec (325 / 180 * PI) dihedral) as [H1|H1]; [|reflexivity].
  destruct (Rlt_dec dihedral (55 / 180 * PI)) as [H2|H2]; [lra | reflexivity].
Qed.

(** The windows of [assign_psea] are never met by a dihedral that
    [compute_dihedral_angle] returns: the helix window starts above pi and
    the sheet window is empty, so the classification step can only answer
    coil (or raise). *)
Theorem psea_classify_only_coil (a b c distances : vector)
    (dihedral angle : R) (result : list Z) :
  norm b <> 0 ->
  compute_dihedral_angle a b c = Some dihedral ->
  psea_classify distances dihedral angle = Some result ->
  result = coil.
Proof.
  intros Hb Hd H.
  pose proof (compute_dihedral_angle_range a b c dihedral Hb Hd) as [_ Hle].
  unfold psea_classify in H.
  rewrite !_assign_psea_aux_criteria in H.
  rewrite (dihedral_fits_helix dihedral Hle), dihedral_fits_sheet in H.
  destruct (distances_fit distances [(5.5, 0.5); (5.3, 0.5); (6.4, 0.6)])
    as [g1|]; [|discriminate].
  cbn [obind] in H. rewrite andb_false_r in H.
  destruct (distances_fit distances [(6.7, 0.6); (9.9, 0.9); (12.4, 1.1)])
    as [g2|]; [|discriminate].
  cbn [obind] in H. rewrite andb_false_r in H.
  inversion H. reflexivity.
Qed.

Lemma psea_classify_only_coil_witness :
  exists dihedral result,
    compute_dihedral_angle [1; 0; 0] [0; 1; 0] [0; 0; 1] = Some dihedral
    /\ psea_classify [0; 0; 0; 0; 0] dihedral 0 = Some result
    /\ result = coil.
Proof.
  eexists. exists coil. split; [reflexivity|].
  match goal with
  | |- ?P /\ _ => assert (Hc : P)
  end.
  { unfold psea_classify. rewrite !_assign_psea_aux_criteria.
    unfold distances_fit, distance_fits. cbn [nth_error Nat.add obind].
    rewrite (Rltb_false (5.5 - 0.5) 0), (Rltb_false (6.7 - 0.6) 0) by lra.
    reflexivity. }
  split; [exact Hc|].
  eapply (psea_classify_only_coil [1; 0; 0] [0; 1; 0] [0; 0; 1]).
  - apply norm_nonzero. intros H. inversion H. lra.
  - reflexivity.
  - exact Hc.
Defined.

(** [_assign_psea_aux] raises exactly when there are fewer than five
    distances or fewer than three distance windows. *)
Theorem _assign_psea_aux_raises (distances : vector) (dihedral angle : R)
    (distance_spec : list (R * R)) (dihedral_spec angle_spec : R * R) :
  _assign_psea_aux distances dihedral angle distance_spec dihedral_spec
    angle_spec = None
  <-> (length distances < 5 \/ length distance_spec < 3)%nat.
Proof.
  rewrite _assign_psea_aux_criteria.
  unfold distances_fit, distance_fits.
  destruct distances as [|d0 [|d1 [|d2 [|d3 [|d4 dr]]]]];
    destruct distance_spec as [|[t0 r0] [|[t1 r1] [|[t2 r2] sr]]];
    cbn [nth_error Nat.add obind length];
    (split; [intros H; try discriminate; lia | intros H; try reflexivity; lia]).
Qed.

(** *** Local frames *)

Lemma shape3_intro (c : nat) (r0 r1 r2 : vector) :
  length r0 = c -> length r1 = c -> length r2 = c -> shape 3 c [r0; r1; r2].
Proof.
  intros H0 H1 H2. split; [reflexivity|]. repeat constructor; assumption.
Qed.

Lemma diff_next_shape (n : nat) (m : matrix) :
  shape 3 n m -> shape 3 (n - 1) (diff_next m).
Proof.
  intros H. destruct (shape3_inv _ _ H) as (r0 & r1 & r2 & -> & H0 & H1 & H2).
  unfold diff_next. cbn [map].
  apply shape3_intro; unfold vsub;
    rewrite map2_length, length_tl, removelast_firstn_len, length_firstn; lia.
Qed.

Lemma normalise_columns_shape (k : nat) (m : matrix) :
  shape 3 k m -> shape 3 k (normalise_columns m).
Proof.
  intros H. pose proof (ncols_shape k m H) as Hc.
  destruct (shape3_inv _ _ H) as (r0 & r1 & r2 & E & H0 & H1 & H2).
  unfold normalise_columns, norm_axis0, transpose. rewrite Hc, E.
  cbn [map].
  apply shape3_intro;
    rewrite map2_length, !length_map, length_seq; lia.
Qed.

Lemma length_edge_row (e : R) (m : vector) (k : nat) :
  length m = (k - 2)%nat -> length ([e] ++ m ++ [e]) = Nat.max k 2.
Proof.
  intros H. rewrite !length_app, H. simpl. lia.
Qed.

Lemma nth_edge_row_last (e : R) (m : vector) (k : nat) :
  length m = (k - 2)%nat -> nth (Nat.max k 2 - 1) ([e] ++ m ++ [e]) 0 = e.
Proof.
  intros H. replace (Nat.max k 2 - 1)%nat with (S (length m)) by lia.
  cbn [app nth]. rewrite app_nth2 by lia. rewrite Nat.sub_diag. reflexivity.
Qed.

(** The rows that [orientation] puts together: each is one entry of the
    identity frame, [n - 2] computed entries, and the same entry of the
    identity frame again. *)
Lemma orientation_rows (n : nat) (positions : matrix) :
  shape 3 n positions ->
  exists m0 m1 m2 m3 m4 m5 m6 m7 m8 : vector,
    Forall (fun m => length m = (n - 2)%nat) [m0; m1; m2; m3; m4; m5; m6; m7; m8]
    /\ orientation positions
       = Some [[[1] ++ m0 ++ [1]; [0] ++ m1 ++ [0]; [0] ++ m2 ++ [0]];
               [[0] ++ m3 ++ [0]; [1] ++ m4 ++ [1]; [0] ++ m5 ++ [0]];
               [[0] ++ m6 ++ [0]; [0] ++ m7 ++ [0]; [1] ++ m8 ++ [1]]].
Proof.
  intros H.
  pose proof (normalise_columns_shape _ _ (diff_next_shape _ _ H)) as Hu.
  destruct (shape3_inv _ _ Hu) as (ua & ub & uc & Eu & Ha & Hb & Hc).
  unfold orientation. rewrite Eu. cbn [map msub map2 cross_columns obind].
  assert (Hcut : forall r : vector, length r = (n - 1)%nat ->
            length (removelast r) = (n - 2)%nat /\ length (tl r) = (n - 2)%nat).
  { intros r Hr. rewrite length_tl, removelast_firstn_len, length_firstn. lia. }
  destruct (Hcut ua Ha) as [Ha1 Ha2].
  destruct (Hcut ub Hb) as [Hb1 Hb2].
  destruct (Hcut uc Hc) as [Hc1 Hc2].
  match goal with
  | |- context [normalise_columns
                  [vsub (removelast ua) (tl ua); ?y; ?z]] =>
      assert (Hbs : shape 3 (n - 2)
                      (normalise_columns [vsub (removelast ua) (tl ua); y; z]))
  end.
  { apply normalise_columns_shape, shape3_intro; unfold vsub;
      rewrite map2_length; lia. }
  destruct (shape3_inv _ _ Hbs) as (b0 & b1 & b2 & Eb & Lb0 & Lb1 & Lb2).
  rewrite Eb.
  match goal with
  | |- context [normalise_columns [vsub ?p ?q; ?y; ?z]] =>
      assert (Hns : shape 3 (n - 2) (normalise_columns [vsub p q; y; z]))
  end.
  { apply normalise_columns_shape, shape3_intro; unfold vsub;
      rewrite !map2_length; lia. }
  destruct (shape3_inv _ _ Hns) as (n0 & n1 & n2 & En & Ln0 & Ln1 & Ln2).
  rewrite En. cbn [cross_columns obind app concat_axis1].
  do 9 eexists. split; [|reflexivity].
  repeat constructor; try assumption; unfold vsub; rewrite !map2_length; lia.
Qed.

(** For a 3 x n array of positions [orientation] returns an array of shape
    (3, 3, max n 2), and its first and its last frame are the identity. *)
Theorem orientation_frames (n : nat) (positions : matrix) :
  shape 3 n positions ->
  exists frames,
    orientation positions = Some frames
    /\ length frames = 3%nat
    /\ Forall (shape 3 (Nat.max n 2)) frames
    /\ Torch.slice_last frames 0 = eye 3
    /\ Torch.slice_last frames (Nat.max n 2 - 1) = eye 3.
Proof.
  intros H.
  destruct (orientation_rows n positions H)
    as (m0 & m1 & m2 & m3 & m4 & m5 & m6 & m7 & m8 & Hlen & ->).
  repeat match goal with
         | Hf : Forall _ (_ :: _) |- _ =>
             let Hh := fresh "L" in
             pose proof (Forall_inv Hf) as Hh; cbv beta in Hh;
             apply Forall_inv_tail in Hf
         end.
  eexists. split; [reflexivity|]. split; [reflexivity|].
  split; [|split].
  - repeat constructor; apply length_edge_row; assumption.
  - reflexivity.
  - unfold Torch.slice_last. cbn [map].
    rewrite !nth_edge_row_last by assumption. reflexivity.
Qed.

Lemma orientation_frames_witness :
  exists frames,
    orientation [[0; 1; 2; 4]; [0; 0; 1; 1]; [0; 0; 0; 1]] = Some frames
    /\ length frames = 3%nat
    /\ Forall (shape 3 (Nat.max 4 2)) frames
    /\ Torch.slice_last frames 0 = eye 3
    /\ Torch.slice_last frames (Nat.max 4 2 - 1) = eye 3.
Proof.
  apply (orientation_frames 4 [[0; 1; 2; 4]; [0; 0; 1; 1]; [0; 0; 0; 1]]).
  split; [reflexivity | repeat constructor].
Defined.

(** [orientation] raises unless the array of positions has three rows. *)
Theorem orientation_raises (positions : matrix) :
  length positions <> 3%nat -> orientation positions = None.
Proof.
  intros H. unfold orientation.
  destruct positions as [|p0 [|p1 [|p2 [|p3 rest]]]];
    try (simpl in H; congruence); reflexivity.
Qed.

Lemma orientation_raises_witness :
  orientation [[0; 1]; [0; 0]] = None.
Proof.
  apply (orientation_raises [[0; 1]; [0; 0]]). simpl. discriminate.
Defined.

(** *** Relative orientation *)

Lemma norm_dot (v0 v1 v2 : R) :
  norm [v0; v1; v2] = sqrt (dot [v0; v1; v2] [v0; v1; v2]).
Proof. reflexivity. Qed.

Lemma orthogonal_frame_dot (a b c d e f g h i w0 w1 w2 : R) :
  let frame := [[a; b; c]; [d; e; f]; [g; h; i]] in
  matmul frame (transpose frame) = eye 3 ->
  exists t0 t1 t2,
    matvec (transpose frame) [w0; w1; w2] = [t0; t1; t2]
    /\ dot [t0; t1; t2] [t0; t1; t2] = dot [w0; w1; w2] [w0; w1; w2].
Proof.
  intros frame H. unfold frame in *. cbn in H.
  inversion H as [[H00 H01 H02 H10 H11 H12 H20 H21 H22]]. clear H.
  cbn. do 3 eexists. split; [reflexivity|].
  unfold dot, sum. cbn. nsatz.
Qed.

Lemma norm_unit (c0 c1 c2 : R) :
  norm [c0; c1; c2] <> 0 ->
  norm (vdiv [c0; c1; c2] (norm [c0; c1; c2])) = 1.
Proof.
  intros Hn. cbn [vdiv map].
  assert (Hnz : [c0; c1; c2] <> [0; 0; 0]).
  { intros E. inversion E; subst. apply Hn. unfold norm, sum. cbn.
    replace (0 * 0 + (0 * 0 + (0 * 0 + 0))) with 0 by ring. apply sqrt_0. }
  pose proof (unit_normalised c0 c1 c2 Hnz) as Hu. cbv zeta in Hu.
  unfold norm at 1. unfold sum. cbn.
  match goal with
  | |- sqrt ?e = 1 => replace e with 1 by lra
  end.
  apply sqrt_1.
Qed.

(** When the frame [x_o] is orthogonal, every direction that the numpy
    branch returns is a unit vector, except for coincident points, where
    it is zero. *)
Theorem relative_orientation_unit_direction
    (N : nat) (x y x_o y_o : matrix) :
  shape 3 N x -> shape 3 N y -> shape 3 3 x_o -> shape 3 3 y_o ->
  matmul x_o (transpose x_o) = eye 3 ->
  exists (dist : vector) (dir : matrix) (rotation : array),
    relative_orientation (Nd2 x) (Nd2 y) (Nd2 x_o) (Nd2 y_o)
    = Some (Nd1 dist, Nd2 dir, rotation)
    /\ forall j, (j < N)%nat ->
         (nth j dist 0 <> 0 -> norm (col dir j) = 1)
         /\ (nth j dist 0 = 0 -> norm (col dir j) = 0).
Proof.
  intros Hx Hy Hxo Hyo Horth.
  destruct (rotation_defined x_o y_o Hxo Hyo) as [q Hq].
  do 3 eexists. split.
  - cbn. unfold _np_relative_orientation. cbn. rewrite Hq. reflexivity.
  - intros j Hj.
    rewrite (direction_col N x y x_o Hx Hy Hxo j Hj).
    unfold Reqb.
    destruct (Req_dec_T (nth j (norm_axis0 (msub y x)) 0) 0) as [E|NE];
      split; intros H; try contradiction.
    + unfold norm, sum. cbn.
      replace (0 * 0 + (0 * 0 + (0 * 0 + 0))) with 0 by ring. apply sqrt_0.
    + rewrite col_matmul
        by (rewrite (ncols_shape N) by (apply scaled_shape; assumption);
            exact Hj).
      rewrite (scaled_col N x y Hx Hy j Hj).
      rewrite (distance_nth N x y Hx Hy j Hj) in *.
      destruct (shape3_inv _ _ (offset_shape N x y Hx Hy))
        as (o0 & o1 & o2 & Eo & _).
      rewrite Eo in *. cbn [col map] in *.
      set (c0 := nth j o0 0) in *. set (c1 := nth j o1 0) in *.
      set (c2 := nth j o2 0) in *.
      pose proof (norm_unit c0 c1 c2 NE) as Hunit.
      cbn [vdiv map] in *.
      destruct (shape3_inv _ _ Hxo) as (r0 & r1 & r2 & -> & L0 & L1 & L2).
      destruct (length3_inv _ L0) as (a & b & c & ->).
      destruct (length3_inv _ L1) as (d & e & f & ->).
      destruct (length3_inv _ L2) as (g & h & i & ->).
      destruct (orthogonal_frame_dot a b c d e f g h i
                  (c0 / norm [c0; c1; c2]) (c1 / norm [c0; c1; c2])
                  (c2 / norm [c0; c1; c2]) Horth)
        as (t0 & t1 & t2 & Et & Hdot).
      rewrite Et, norm_dot, Hdot, <- norm_dot. exact Hunit.
Qed.

Lemma relative_orientation_unit_direction_witness :
  exists (dist : vector) (dir : matrix) (rotation : array),
    relative_orientation (Nd2 [[0]; [0]; [0]]) (Nd2 [[2]; [0]; [0]])
                         (Nd2 (eye 3)) (Nd2 (eye 3))
    = Some (Nd1 dist, Nd2 dir, rotation)
    /\ forall j, (j < 1)%nat ->
         (nth j dist 0 <> 0 -> norm (col dir j) = 1)
         /\ (nth j dist 0 = 0 -> norm (col dir j) = 0).
Proof.
  apply (relative_orientation_unit_direction 1 [[0]; [0]; [0]] [[2]; [0]; [0]]
           (eye 3) (eye 3));
    try (split; [reflexivity | repeat constructor]).
  cbn. repeat (f_equal; try ring).
Defined.

Lemma map2_map_map {A B C D : Type} (h : B -> C -> D) (f : A -> B)
    (g : A -> C) (l : list A) :
  map2 h (map f l) (map g l) = map (fun a => h (f a) (g a)) l.
Proof.
  induction l as [|a l IH]; simpl; [reflexivity|]. rewrite IH. reflexivity.
Qed.

Lemma concat_singletons {A B : Type} (f : A -> B) (l : list A) :
  concat (map (fun a => [f a]) l) = map f l.
Proof.
  induction l as [|a l IH]; simpl; [reflexivity|]. rewrite IH. reflexivity.
Qed.

Lemma quaternion_th_defined (a b : matrix) :
  shape 3 3 a -> shape 3 3 b ->
  exists q, matrix_to_quaternion_th (matmul a b) = Some q /\ length q = 4%nat.
Proof.
  intros Ha Hb.
  destruct (shape3_inv _ _ Ha) as (a0 & a1 & a2 & -> & _).
  destruct (shape3_inv _ _ Hb) as (b0 & b1 & b2 & -> & L0 & L1 & L2).
  destruct (length3_inv _ L0) as (? & ? & ? & ->).
  destruct (length3_inv _ L1) as (? & ? & ? & ->).
  destruct (length3_inv _ L2) as (? & ? & ? & ->).
  cbn. eexists. split; reflexivity.
Qed.

Lemma quaternions_th_defined {A : Type} (f : A -> matrix) (frames : list A) :
  Forall (fun m => shape 3 3 (f m)) frames ->
  (forall m, shape 3 3 (f m) ->
             exists q, matrix_to_quaternion_th (f m) = Some q
                       /\ length q = 4%nat) ->
  exists qs, mapM matrix_to_quaternion_th (map f frames) = Some qs
             /\ shape (length frames) 4 qs.
Proof.
  intros Hf Hq. induction Hf as [|m frames Hm _ IH].
  - exists []. split; [reflexivity|]. split; [reflexivity | constructor].
  - destruct IH as (qs & Hqs & Hlen & Hrows).
    destruct (Hq m Hm) as (q & Eq & Lq).
    exists (q :: qs). cbn [map mapM]. rewrite Eq. cbn [obind].
    rewrite Hqs. cbn [obind]. split; [reflexivity|].
    split; [simpl; congruence | constructor; assumption].
Qed.

(** The neighbourhood branch on tensors: for one point [x] with frame
    [x_o] and [K] neighbours [y] with frames [y_o], [relative_orientation]
    returns a (K, 1) tensor of distances, a tensor of directions and one
    quaternion of four entries per neighbour frame.  The direction of
    neighbour [k] is its offset divided by its distance plus [1e-6],
    times [x_o]; it is set to zero when the distance is zero. *)
Theorem relative_orientation_neighbourhood
    (x : vector) (y x_o : matrix) (y_o : list matrix) :
  length x = 3%nat ->
  Forall (fun r => length r = 3%nat) y ->
  shape 3 3 x_o ->
  Forall (shape 3 3) y_o ->
  exists (distance direction rotation : matrix),
    relative_orientation (Th1 x) (Th2 y) (Th2 x_o) (Th3 y_o)
    = Some (Th2 distance, Th2 direction, Th2 rotation)
    /\ shape (length y_o) 4 rotation
    /\ distance = map (fun r => [norm (vsub r x)]) y
    /\ direction
       = map (fun r =>
                let d := norm (vsub r x) in
                if Reqb d 0 then [0; 0; 0]
                else vecmat (vdiv (vsub r x) (d + eps)) x_o) y.
Proof.
  intros Hx Hy Hxo Hyo.
  destruct (quaternions_th_defined (matmul x_o) y_o) as (qs & Hqs & Hshape).
  { eapply Forall_impl; [|exact Hyo]. intros m Hm.
    destruct (shape3_inv _ _ Hxo) as (a0 & a1 & a2 & -> & _).
    destruct (shape3_inv _ _ Hm) as (b0 & b1 & b2 & -> & L0 & _).
    unfold matmul, transpose. cbn [map ncols]. rewrite L0. cbn.
    split; [reflexivity | repeat constructor]. }
  { intros m Hm. unfold shape in Hm.
    destruct Hm as [Hl Hr].
    destruct (matmul x_o m) as [|r0 [|r1 [|r2 [|r3 rest]]]];
      simpl in Hl; try discriminate.
    inversion Hr as [|? ? L0 Hr1]; subst.
    inversion Hr1 as [|? ? L1 Hr2]; subst.
    inversion Hr2 as [|? ? L2 _]; subst.
    destruct (length3_inv _ L0) as (? & ? & ? & ->).
    destruct (length3_inv _ L1) as (? & ? & ? & ->).
    destruct (length3_inv _ L2) as (? & ? & ? & ->).
    cbn. eexists. split; reflexivity. }
  exists (map (fun r => [norm (vsub r x)]) y).
  eexists. exists qs.
  split; [|split; [exact Hshape|split; [reflexivity|reflexivity]]].
  cbn [relative_orientation is_tensor dim Nat.eqb negb].
  unfold _torch_neighbourhood_relative_orientation.
  cbn [matrix_to_quaternion is_tensor]. rewrite Hqs. cbn [obind].
  assert (Hd : norm_dim1 (map (fun r => vsub r x) y)
               = map (fun r => [norm (vsub r x)]) y).
  { unfold norm_dim1. apply map_map. }
  rewrite Hd. do 3 f_equal.
  unfold zero_rows, is_zero, unit_rows, matmul.
  rewrite (map2_map_map (fun r d => vdiv r (hd 0 d + eps))
             (fun r => vsub r x) (fun r => [norm (vsub r x)]) y).
  rewrite !map_map.
  rewrite (concat_singletons (fun r => norm (vsub r x)) y).
  rewrite map_map.
  rewrite (map2_map_map
             (fun r (b : bool) => if b then map (fun _ => 0) r else r)
             (fun r => map (dot (vdiv (vsub r x) (hd 0 [norm (vsub r x)] + eps)))
                           (transpose x_o))
             (fun r => Reqb (norm (vsub r x)) 0) y).
  f_equal. apply map_ext. intros r. cbn [hd]. cbv zeta.
  destruct (Reqb (norm (vsub r x)) 0); [|reflexivity].
  destruct (shape3_inv _ _ Hxo) as (a0 & a1 & a2 & -> & L0 & _).
  unfold transpose. cbn [ncols]. rewrite L0. reflexivity.
Qed.

Lemma relative_orientation_neighbourhood_witness :
  exists (distance direction rotation : matrix),
    relative_orientation (Th1 [0; 0; 0]) (Th2 [[2; 0; 0]; [0; 0; 0]])
                         (Th2 (eye 3)) (Th3 [eye 3; eye 3])
    = Some (Th2 distance, Th2 direction, Th2 rotation)
    /\ shape (length [eye 3; eye 3]) 4 rotation
    /\ distance = map (fun r => [norm (vsub r [0; 0; 0])]) [[2; 0; 0]; [0; 0; 0]]
    /\ direction
       = map (fun r =>
                let d := norm (vsub r [0; 0; 0]) in
                if Reqb d 0 then [0; 0; 0]
                else vecmat (vdiv (vsub r [0; 0; 0]) (d + eps)) (eye 3))
             [[2; 0; 0]; [0; 0; 0]].
Proof.
  apply (relative_orientation_neighbourhood [0; 0; 0]
           [[2; 0; 0]; [0; 0; 0]] (eye 3) [eye 3; eye 3]).
  - reflexivity.
  - repeat constructor.
  - split; [reflexivity | repeat constructor].
  - repeat constructor.
Defined.

Lemma map2_combine {A B C : Type} (f : A -> B -> C) (l : list A) (l' : list B) :
  map2 f l l' = map (fun p => f (fst p) (snd p)) (combine l l').
Proof.
  revert l'. induction l as [|a l IH]; intros [|b l']; simpl;
    try reflexivity. rewrite IH. reflexivity.
Qed.

Lemma nth_error_map2 {A B C : Type} (f : A -> B -> C) (l : list A)
    (l' : list B) (n : nat) (a : A) (b : B) :
  nth_error l n = Some a -> nth_error l' n = Some b ->
  nth_error (map2 f l l') n = Some (f a b).
Proof.
  revert l' n. induction l as [|a0 l IH]; intros [|b0 l'] [|n] Ha Hb;
    simpl in *; try discriminate.
  - congruence.
  - apply IH; assumption.
Qed.

Lemma nth_error_map_some {A B : Type} (f : A -> B) (l : list A) (n : nat)
    (a : A) :
  nth_error l n = Some a -> nth_error (map f l) n = Some (f a).
Proof.
  intros H. rewrite nth_error_map, H. reflexivity.
Qed.

Lemma shape33_matmul (a b : matrix) :
  shape 3 3 a -> shape 3 3 b -> shape 3 3 (matmul a b).
Proof.
  intros Ha Hb.
  destruct (shape3_inv _ _ Ha) as (a0 & a1 & a2 & -> & _).
  destruct (shape3_inv _ _ Hb) as (b0 & b1 & b2 & -> & L0 & _).
  unfold matmul, transpose. cbn [map ncols]. rewrite L0. cbn.
  split; [reflexivity | repeat constructor].
Qed.

(** The batch branch on tensors: for [N] pairs of points with their
    frames, [relative_orientation] returns an (N, 1) tensor of distances
    and one quaternion of four entries per pair.  The direction of pair
    [n] is [x_o[n]] applied to the offset divided by the distance plus
    [1e-6], and zero when the distance is zero.  The directions come back
    squeezed: with a batch of one, as a single vector instead of a
    (1, 3) tensor. *)
Theorem relative_orientation_batch
    (N : nat) (x y : matrix) (x_o y_o : list matrix) :
  shape N 3 x -> shape N 3 y ->
  length x_o = N -> Forall (shape 3 3) x_o ->
  length y_o = N -> Forall (shape 3 3) y_o ->
  exists (distance direction rotation : matrix) (returned : array),
    relative_orientation (Th2 x) (Th2 y) (Th3 x_o) (Th3 y_o)
    = Some (Th2 distance, returned, Th2 rotation)
    /\ shape N 4 rotation
    /\ length distance = N /\ length direction = N
    /\ (forall n xr yr xo,
          nth_error x n = Some xr -> nth_error y n = Some yr ->
          nth_error x_o n = Some xo ->
          let d := norm (vsub yr xr) in
          nth_error distance n = Some [d]
          /\ nth_error direction n
             = Some (if Reqb d 0 then [0; 0; 0]
                     else matvec xo (vdiv (vsub yr xr) (d + eps))))
    /\ (N = 1%nat -> exists row, direction = [row] /\ returned = Th1 row)
    /\ (N <> 1%nat -> returned = Th2 direction).
Proof.
  intros [Lx Hx] [Ly Hy] Lxo Hxo Lyo Hyo.
  destruct (quaternions_th_defined
              (fun p : matrix * matrix => matmul (fst p) (snd p))
              (combine x_o y_o)) as (qs & Hqs & Hshape).
  { apply Forall_forall. intros [a b] Hin. cbn [fst snd].
    rewrite Forall_forall in Hxo, Hyo.
    apply shape33_matmul;
      [apply Hxo; eapply in_combine_l | apply Hyo; eapply in_combine_r];
      exact Hin. }
  { intros [a b] Hm. cbn [fst snd] in *. unfold shape in Hm.
    destruct Hm as [Hl Hr].
    destruct (matmul a b) as [|r0 [|r1 [|r2 [|r3 rest]]]];
      simpl in Hl; try discriminate.
    inversion Hr as [|? ? L0 Hr1]; subst.
    inversion Hr1 as [|? ? L1 Hr2]; subst.
    inversion Hr2 as [|? ? L2 _]; subst.
    destruct (length3_inv _ L0) as (? & ? & ? & ->).
    destruct (length3_inv _ L1) as (? & ? & ? & ->).
    destruct (length3_inv _ L2) as (? & ? & ? & ->).
    cbn. eexists. split; reflexivity. }
  rewrite <- map2_combine in Hqs.
  rewrite length_combine, Lxo, Lyo, Nat.min_id in Hshape.
  set (offset := msub y x).
  set (distance := norm_dim1 offset).
  set (direction :=
         zero_rows (map2 matvec x_o (unit_rows offset distance))
                   (is_zero distance)).
  assert (Loff : length offset = N).
  { unfold offset, msub. rewrite map2_length. unfold vector in *. lia. }
  assert (Ldist : length distance = N).
  { unfold distance, norm_dim1. rewrite length_map. exact Loff. }
  assert (Ldir : length direction = N).
  { unfold direction, zero_rows, is_zero, unit_rows, distance, norm_dim1.
    rewrite concat_singletons.
    rewrite !map2_length, !length_map. fold offset.
    unfold vector, matrix in *. lia. }
  exists distance, direction, qs, (squeeze direction).
  split; [|split; [exact Hshape|split; [exact Ldist|split; [exact Ldir|]]]].
  { cbn [relative_orientation is_tensor dim Nat.eqb negb].
    unfold _torch_batch_relative_orientation.
    cbn [matrix_to_quaternion is_tensor]. rewrite Hqs. reflexivity. }
  split; [|split].
  - intros n xr yr xo Hxr Hyr Hxon d.
    assert (Ho : nth_error offset n = Some (vsub yr xr)).
    { unfold offset, msub. apply nth_error_map2; assumption. }
    assert (Hdn : nth_error distance n = Some [d]).
    { unfold distance, norm_dim1.
      exact (nth_error_map_some (fun r => [norm r]) offset n _ Ho). }
    split; [exact Hdn|].
    assert (Hraw : nth_error direction n
                   = Some (if Reqb d 0
                           then map (fun _ => 0)
                                  (matvec xo (vdiv (vsub yr xr) (d + eps)))
                           else matvec xo (vdiv (vsub yr xr) (d + eps)))).
    { unfold direction, zero_rows.
      apply (nth_error_map2
               (fun r (b : bool) => if b then map (fun _ => 0) r else r)
               _ _ n (matvec xo (vdiv (vsub yr xr) (d + eps))) (Reqb d 0)).
      - apply nth_error_map2; [exact Hxon|].
        unfold unit_rows.
        exact (nth_error_map2 (fun r dd => vdiv r (hd 0 dd + eps))
                 offset distance n _ _ Ho Hdn).
      - unfold is_zero, distance, norm_dim1. rewrite concat_singletons.
        rewrite map_map.
        exact (nth_error_map_some (fun r => Reqb (norm r) 0) offset n _ Ho). }
    etransitivity; [exact Hraw|]. f_equal.
    destruct (Reqb d 0); [|reflexivity].
    assert (Hs : shape 3 3 xo).
    { rewrite Forall_forall in Hxo. apply Hxo.
      eapply nth_error_In. exact Hxon. }
    destruct (shape3_inv _ _ Hs) as (a0 & a1 & a2 & -> & _). reflexivity.
  - intros ->. destruct direction as [|row [|row' rest]];
      simpl in Ldir; try discriminate.
    exists row. split; reflexivity.
  - intros HN. destruct direction as [|row [|row' rest]];
      simpl in Ldir; try reflexivity. congruence.
Qed.

Lemma relative_orientation_batch_witness :
  exists (distance direction rotation : matrix) (returned : array),
    relative_orientation (Th2 [[0; 0; 0]]) (Th2 [[2; 0; 0]])
                         (Th3 [eye 3]) (Th3 [eye 3])
    = Some (Th2 distance, returned, Th2 rotation)
    /\ shape 1 4 rotation
    /\ length distance = 1%nat /\ length direction = 1%nat
    /\ (forall n xr yr xo,
          nth_error [[0; 0; 0]] n = Some xr ->
          nth_error [[2; 0; 0]] n = Some yr ->
          nth_error [eye 3] n = Some xo ->
          let d := norm (vsub yr xr) in
          nth_error distance n = Some [d]
          /\ nth_error direction n
             = Some (if Reqb d 0 then [0; 0; 0]
                     else matvec xo (vdiv (vsub yr xr) (d + eps))))
    /\ (1%nat = 1%nat -> exists row, direction = [row] /\ returned = Th1 row)
    /\ (1%nat <> 1%nat -> returned = Th2 direction).
Proof.
  apply (relative_orientation_batch 1 [[0; 0; 0]] [[2; 0; 0]]
           [eye 3] [eye 3]).
  - split; [reflexivity | repeat constructor].
  - split; [reflexivity | repeat constructor].
  - reflexivity.
  - repeat constructor.
  - reflexivity.
  - repeat constructor.
Defined.

End GeometryMore.

(** ** Further results on protein_transformer.py *)

Module TransformerMore.
Import Np Geometry Torch Transformer TransformerSpec ListFacts TransformerFacts.

Section Raising.

Lemma mapM_None {A B : Type} (f : A -> option B) (l : list A) :
  Exists (fun a => f a = None) l -> mapM f l = None.
Proof.
  induction 1 as [a l Ha|a l _ IH]; simpl.
  - rewrite Ha. reflexivity.
  - rewrite IH. destruct (f a); reflexivity.
Qed.

Lemma Linear_forward_None (l : Linear) (x : matrix) :
  Exists (fun r => length r <> in_features l) x -> Linear_forward l x = None.
Proof.
  intros H. apply mapM_None.
  eapply Exists_impl; [|exact H].
  intros r Hr. cbv beta.
  destruct (Nat.eqb_spec (length r) (in_features l)); [contradiction|].
  reflexivity.
Qed.

End Raising.

Section Running.
Context {L : Library}.
Local Open Scope torch_scope.

Lemma run_blocks_app (front back : list StructuredTransformerEncoderBlock)
    (out : matrix) (structure : orientation_structure) :
  same (run_blocks (front ++ back) out structure)
       (mid <- run_blocks front out structure ;;
        run_blocks back mid structure).
Proof.
  revert out. induction front as [|block front IH]; intros out.
  - intros g. reflexivity.
  - cbn [app run_blocks].
    eapply same_trans.
    + apply bind_same; [apply same_refl | intros o; apply IH].
    + intros g. symmetry. apply bind_assoc.
Qed.

(** Stacking composes: an encoder whose blocks are those of a first encoder
    followed by further blocks, with the same input projection, computes
    what the first encoder computes and then runs the further blocks on
    it. *)
Theorem encoder_forward_stacked
    (shallow deep : StructuredTransformerEncoder)
    (further : list StructuredTransformerEncoderBlock)
    (features : matrix) (structure : orientation_structure) :
  enc_preprocessor deep = enc_preprocessor shallow ->
  enc_blocks deep = enc_blocks shallow ++ further ->
  same (StructuredTransformerEncoder_forward deep features structure)
       (out <- StructuredTransformerEncoder_forward shallow features structure ;;
        run_blocks further out structure).
Proof.
  intros Hp Hb. unfold StructuredTransformerEncoder_forward.
  rewrite Hp, Hb.
  eapply same_trans.
  - apply bind_same; [apply same_refl | intros o; apply run_blocks_app].
  - intros g. symmetry. apply bind_assoc.
Qed.

(** The encoder raises, before any block runs, when a row of the features
    does not have [in_size] entries. *)
Theorem encoder_forward_raises
    (in_size size : nat) (distance_size : Z)
    (attention_size heads hidden_size depth mlp_depth : nat)
    (dropout : option R) (activation : activation_fn)
    (batch_norm pre_norm : bool) (normalization : layer -> layer)
    (connected : connected_fn) (g0 g1 : rng)
    (self : StructuredTransformerEncoder)
    (features : matrix) (structure : orientation_structure) (g : rng) :
  StructuredTransformerEncoder_init in_size size distance_size attention_size
    heads hidden_size depth mlp_depth dropout activation batch_norm pre_norm
    normalization connected g0 = Some (self, g1) ->
  Exists (fun r => length r <> in_size) features ->
  StructuredTransformerEncoder_forward self features structure g = None.
Proof.
  unfold StructuredTransformerEncoder_init. intros H Hbad.
  run_inv H as preprocessor gp Hpre. run_inv H as blocks gb Hblocks.
  apply ret_Some in H. destruct H as [-> _].
  apply nn_Linear_shape in Hpre. destruct Hpre as [Hin _].
  unfold StructuredTransformerEncoder_forward. cbn [enc_preprocessor].
  unfold bind, lift. rewrite Linear_forward_None; [reflexivity|].
  rewrite Hin. exact Hbad.
Qed.

End Running.

Lemma encoder_forward_stacked_witness :
  same (StructuredTransformerEncoder_forward
          (@Build_StructuredTransformerEncoder example_library
             (example_linear 2 2) ([example_block true] ++ [example_block false]))
          [[1; 2]] tt)
       (Torch.bind
          (StructuredTransformerEncoder_forward
             (@Build_StructuredTransformerEncoder example_library
                (example_linear 2 2) [example_block true])
             [[1; 2]] tt)
          (fun out => run_blocks [example_block false] out tt)).
Proof.
  apply (@encoder_forward_stacked example_library
           (@Build_StructuredTransformerEncoder example_library
              (example_linear 2 2) [example_block true])
           (@Build_StructuredTransformerEncoder example_library
              (example_linear 2 2)
              ([example_block true] ++ [example_block false]))
           [example_block false] [[1; 2]] tt);
    reflexivity.
Defined.

Lemma encoder_forward_raises_witness :
  exists self : @StructuredTransformerEncoder example_library,
    @StructuredTransformerEncoder_init example_library
      3 2 5%Z 4 1 4 2 1 None tt false true (fun x => x) example_connected tt
    = Some (self, tt)
    /\ StructuredTransformerEncoder_forward self [[1; 2; 3]; [1; 2]] tt tt
       = None.
Proof.
  eexists. split; [reflexivity|].
  eapply (@encoder_forward_raises example_library
            3 2 5%Z 4 1 4 2 1 None tt false true (fun x => x)
            example_connected tt tt).
  - reflexivity.
  - apply Exists_cons_tl, Exists_cons_hd. simpl. discriminate.
Defined.

Section Heads.
Context {L : Library}.
Local Open Scope torch_scope.



(** The weights and the concentrations do not depend on the angles given
    to the heads at all: two runs on one encoding return the same weights
    and the same concentration tables. *)
Theorem mixture_heads_weights_independent (self : ProteinTransformer)
    (angles angles' encoding : matrix) (g h g' h' : rng)
    (weights weights' : matrix) (parameters parameters' : list (matrix * matrix)) :
  mixture_heads self angles encoding g = Some ((weights, parameters), g') ->
  mixture_heads self angles' encoding h = Some ((weights', parameters'), h') ->
  weights = weights' /\ map snd parameters = map snd parameters'.
Proof.
  intros H H'.
  apply mixture_heads_Some in H, H'.
  destruct H as (mean & act & logits & lc & _ & _ & Hlc & Hact & Hlog & -> & ->).
  destruct H' as (mean' & act' & logits' & lc' & _ & _ & Hlc' & Hact' & Hlog'
                  & -> & ->).
  rewrite Hlog in Hlog'. inversion Hlog'; subst logits'.
  rewrite Hlc in Hlc'. inversion Hlc'; subst lc'.
  rewrite Hact in Hact'. inversion Hact'; subst act'.
  split; [reflexivity|].
  rewrite !map_map. reflexivity.
Qed.

End Heads.


Lemma mixture_heads_weights_independent_witness :
  exists weights parameters weights' parameters',
    mixture_heads example_model [[1; 2; 3]] [[1; 1]] tt
    = Some ((weights, parameters), tt)
    /\ mixture_heads example_model [[5; 6; 7]] [[1; 1]] tt
       = Some ((weights', parameters'), tt)
    /\ weights = weights' /\ map snd parameters = map snd parameters'.
Proof.
  do 4 eexists.
  split; [cbn; reflexivity|]. split; [cbn; reflexivity|].
  eapply (@mixture_heads_weights_independent example_library example_model
            [[1; 2; 3]] [[5; 6; 7]] [[1; 1]] tt tt tt tt);
    cbn; reflexivity.
Defined.

Section Means.
Context {L : Library}.
Local Open Scope torch_scope.

Lemma Forall2_nth_error {A B : Type} (P : A -> B -> Prop) (l : list A)
    (l' : list B) (n : nat) (a : A) :
  Forall2 P l l' -> nth_error l n = Some a ->
  exists b, nth_error l' n = Some b /\ P a b.
Proof.
  intros H. revert n. induction H as [|x y l l' Hxy _ IH]; intros [|n] Hn;
    simpl in Hn; try discriminate.
  - inversion Hn; subst. exists y. split; [reflexivity | exact Hxy].
  - apply IH. exact Hn.
Qed.

Lemma column_nth (t : matrix) (j n : nat) (v r : vector) (x : R) :
  column t j = Some v -> nth_error t n = Some r -> nth_error r j = Some x ->
  nth_error v n = Some x.
Proof.
  unfold column. intros Hv Hr Hx.
  apply mapM_Forall2 in Hv.
  destruct (Forall2_nth_error _ _ _ n r Hv Hr) as (b & Hb & Hrb).
  cbv beta in Hrb. congruence.
Qed.

Lemma vmul_nth (u v w : vector) (n : nat) (a b : R) :
  vmul u v = Some w -> nth_error u n = Some a -> nth_error v n = Some b ->
  nth_error w n = Some (a * b).
Proof.
  unfold vmul. destruct (Nat.eqb (length u) (length v)); [|discriminate].
  intros H Ha Hb. inversion H; subst.
  apply GeometryMore.nth_error_map2; assumption.
Qed.

Lemma vplus_nth (u v w : vector) (n : nat) (a b : R) :
  vplus u v = Some w -> nth_error u n = Some a -> nth_error v n = Some b ->
  nth_error w n = Some (a + b).
Proof.
  unfold vplus. destruct (Nat.eqb (length u) (length v)); [|discriminate].
  intros H Ha Hb. inversion H; subst.
  apply GeometryMore.nth_error_map2; assumption.
Qed.

Lemma nth_error_combine {A B : Type} (l : list A) (l' : list B) (n : nat)
    (a : A) (b : B) :
  nth_error l n = Some a -> nth_error l' n = Some b ->
  nth_error (combine l l') n = Some (a, b).
Proof.
  revert l' n. induction l as [|x l IH]; intros [|y l'] [|n] Ha Hb;
    simpl in *; try discriminate.
  - congruence.
  - apply IH; assumption.
Qed.

Lemma add_to_row_nth (j : nat) (t t' : list matrix) (v : vector) (n : nat)
    (m : matrix) (x : R) :
  add_to_row j t v = Some t' ->
  nth_error t n = Some m -> nth_error v n = Some x ->
  exists r,
    nth_error m j = Some r
    /\ nth_error t' n
       = Some (firstn j m ++ map (fun y => y + x) r :: skipn (S j) m).
Proof.
  unfold add_to_row.
  destruct (Nat.eqb (length t) (length v)); [|discriminate].
  intros H Hm Hx. apply mapM_Forall2 in H.
  destruct (Forall2_nth_error _ _ _ n (m, x) H (nth_error_combine _ _ _ _ _ Hm Hx))
    as (m' & Hm' & Hrel).
  cbv beta iota in Hrel.
  destruct (nth_error m j) as [r|]; [|discriminate].
  cbn [obind] in Hrel. inversion Hrel; subst m'.
  exists r. split; [reflexivity | exact Hm'].
Qed.

Lemma nth_error_seq0 (k idx : nat) :
  (idx < k)%nat -> nth_error (seq 0 k) idx = Some idx.
Proof.
  intros H. rewrite (nth_error_nth' _ 0%nat) by (rewrite length_seq; exact H).
  rewrite seq_nth by exact H. reflexivity.
Qed.

(** The means that the heads return, entry by entry.  With [view] the
    output of [self.mean] seen as (n, 3, mix) and [factor] the output of
    [self.factor]: the mean of the first angle is the entry of [view]; the
    mean of the second is shifted by [factor[0]] times the first angle;
    the mean of the third is shifted by [factor[1]] times the first angle
    plus [factor[2]] times the second.  No mean uses the third angle. *)
Theorem mixture_heads_means (self : ProteinTransformer)
    (angles encoding : matrix) (g g' : rng) (weights : matrix)
    (parameters : list (matrix * matrix)) :
  mixture_heads self angles encoding g = Some ((weights, parameters), g') ->
  exists (projected factor : matrix) (view : list matrix),
    pt_mean self encoding g = Some (projected, g')
    /\ view3 (length encoding) 3 (pt_mix self) projected = Some view
    /\ Linear_forward (pt_factor self) encoding = Some factor
    /\ forall idx n m0 m1 m2 f0 f1 f2 a0 a1 rest,
         (idx < pt_mix self)%nat ->
         nth_error view n = Some [m0; m1; m2] ->
         nth_error factor n = Some [f0; f1; f2] ->
         nth_error angles n = Some (a0 :: a1 :: rest) ->
         exists mean concentration,
           nth_error parameters idx = Some (mean, concentration)
           /\ nth_error mean n
              = Some [nth idx m0 0;
                      nth idx m1 0 + f0 * a0;
                      nth idx m2 0 + (f1 * a0 + f2 * a1)].
Proof.
  unfold mixture_heads. intros H.
  run_inv H as mean0 g1 Hmean0.
  run_inv H as mean1 g2 Hmean1. apply lift_Some in Hmean1.
  destruct Hmean1 as [Hmean1 ->].
  run_inv H as factor g3 Hfactor. apply lift_Some in Hfactor.
  destruct Hfactor as [Hfactor ->].
  run_inv H as mean2 g4 Hmean2. apply lift_Some in Hmean2.
  destruct Hmean2 as [Hmean2 ->].
  run_inv H as mean3 g5 Hmean3. apply lift_Some in Hmean3.
  destruct Hmean3 as [Hmean3 ->].
  run_inv H as lc g6 Hlc. apply lift_Some in Hlc. destruct Hlc as [Hlc ->].
  run_inv H as activated g7 Hact. apply lift_Some in Hact.
  destruct Hact as [Hact ->].
  run_inv H as logits g8 Hlogits. apply lift_Some in Hlogits.
  destruct Hlogits as [Hlogits ->].
  apply ret_Some in H. destruct H as [H ->]. inversion H; subst. clear H.
  exists mean0, factor, mean1.
  split; [exact Hmean0|]. split; [exact Hmean1|]. split; [exact Hfactor|].
  intros idx n m0 m1 m2 f0 f1 f2 a0 a1 rest Hidx Hview Hf Ha.
  pose proof (view3_shape _ _ _ _ _ Hmean1) as [_ Hshape].
  assert (Hm : shape 3 (pt_mix self) [m0; m1; m2]).
  { rewrite Forall_forall in Hshape. apply Hshape.
    eapply nth_error_In. exact Hview. }
  destruct Hm as [_ Hrows].
  inversion Hrows as [|? ? L0 Hrows1]; subst.
  inversion Hrows1 as [|? ? L1 Hrows2]; subst.
  inversion Hrows2 as [|? ? L2 _]; subst.
  (* the first shift *)
  destruct (column factor 0) as [c0|] eqn:Ec0; [|discriminate].
  cbn [obind] in Hmean2.
  destruct (column angles 0) as [b0|] eqn:Eb0; [|discriminate].
  cbn [obind] in Hmean2.
  destruct (vmul c0 b0) as [s0|] eqn:Es0; [|discriminate].
  cbn [obind] in Hmean2.
  pose proof (column_nth factor 0 n c0 _ f0 Ec0 Hf eq_refl) as Hc0.
  pose proof (column_nth angles 0 n b0 _ a0 Eb0 Ha eq_refl) as Hb0.
  pose proof (vmul_nth _ _ _ n _ _ Es0 Hc0 Hb0) as Hs0.
  destruct (add_to_row_nth 1 _ _ _ n _ _ Hmean2 Hview Hs0) as (r1 & Hr1 & Hn2).
  cbn in Hr1. inversion Hr1; subst r1. cbn [firstn skipn app] in Hn2.
  (* the second shift *)
  destruct (column factor 1) as [c1|] eqn:Ec1; [|discriminate].
  cbn [obind] in Hmean3.
  destruct (vmul c1 b0) as [s1|] eqn:Es1; [|discriminate].
  cbn [obind] in Hmean3.
  destruct (column factor 2) as [c2|] eqn:Ec2; [|discriminate].
  cbn [obind] in Hmean3.
  destruct (column angles 1) as [b1|] eqn:Eb1; [|discriminate].
  cbn [obind] in Hmean3.
  destruct (vmul c2 b1) as [s2|] eqn:Es2; [|discriminate].
  cbn [obind] in Hmean3.
  destruct (vplus s1 s2) as [s12|] eqn:Es12; [|discriminate].
  cbn [obind] in Hmean3.
  pose proof (column_nth factor 1 n c1 _ f1 Ec1 Hf eq_refl) as Hc1.
  pose proof (column_nth factor 2 n c2 _ f2 Ec2 Hf eq_refl) as Hc2.
  pose proof (column_nth angles 1 n b1 _ a1 Eb1 Ha eq_refl) as Hb1.
  pose proof (vmul_nth _ _ _ n _ _ Es1 Hc1 Hb0) as Hs1.
  pose proof (vmul_nth _ _ _ n _ _ Es2 Hc2 Hb1) as Hs2.
  pose proof (vplus_nth _ _ _ n _ _ Es12 Hs1 Hs2) as Hs12.
  destruct (add_to_row_nth 2 _ _ _ n _ _ Hmean3 Hn2 Hs12) as (r2 & Hr2 & Hn3).
  cbn in Hr2. inversion Hr2; subst r2. cbn [firstn skipn app] in Hn3.
  do 2 eexists. split.
  - apply (GeometryMore.nth_error_map_some
             (fun i => (slice_last mean3 i,
                        slice_last
                          (map (map (map (fun s => 0.1 + 1000 * s))) activated)
                          i))).
    apply nth_error_seq0. exact Hidx.
  - unfold slice_last.
    rewrite (GeometryMore.nth_error_map_some _ _ _ _ Hn3). cbn [map].
    rewrite (nth_map (fun y => y + f0 * a0) m1 idx 0 0) by lia.
    rewrite (nth_map (fun y => y + (f1 * a0 + f2 * a1)) m2 idx 0 0) by lia.
    reflexivity.
Qed.

End Means.

Lemma mixture_heads_means_witness :
  exists (weights : matrix) (parameters : list (matrix * matrix))
         (projected factor : matrix) (view : list matrix),
    mixture_heads example_model [[1; 2; 3]] [[1; 1]] tt
    = Some ((weights, parameters), tt)
    /\ pt_mean example_model [[1; 1]] tt = Some (projected, tt)
    /\ view3 (length [[1; 1]]) 3 (pt_mix example_model) projected = Some view
    /\ Linear_forward (pt_factor example_model) [[1; 1]] = Some factor
    /\ forall idx n m0 m1 m2 f0 f1 f2 a0 a1 rest,
         (idx < pt_mix example_model)%nat ->
         nth_error view n = Some [m0; m1; m2] ->
         nth_error factor n = Some [f0; f1; f2] ->
         nth_error [[1; 2; 3]] n = Some (a0 :: a1 :: rest) ->
         exists mean concentration,
           nth_error parameters idx = Some (mean, concentration)
           /\ nth_error mean n
              = Some [nth idx m0 0;
                      nth idx m1 0 + f0 * a0;
                      nth idx m2 0 + (f1 * a0 + f2 * a1)].
Proof.
  do 2 eexists.
  assert (Hrun : mixture_heads example_model [[1; 2; 3]] [[1; 1]] tt
                 = Some ((_, _), tt)) by (cbn; reflexivity).
  destruct (@mixture_heads_means example_library example_model
              [[1; 2; 3]] [[1; 1]] tt tt _ _ Hrun)
    as (projected & factor & view & H).
  exists projected, factor, view. split; [exact Hrun | exact H].
Defined.

Section Mixture.
Context {L : Library}.
Local Open Scope torch_scope.

(** The heads of a model built by [__init__] with [mix >= 1] components,
    on an encoding of one row of [size] entries per residue: they return
    one row of weights per residue, each row [mix] nonnegative numbers
    that sum to one, and exactly [mix] pairs of a table of means and a
    table of concentrations, each with one row of three entries per
    residue. *)
Theorem mixture_heads_mixture
    (in_size size : nat) (distance_size : Z) (mix attention_size heads
     hidden_size mlp_depth depth : nat) (max_distance : R)
    (distance_kernels : Z) (neighbours : nat) (activation : activation_fn)
    (batch_norm conditional angles_flag : bool) (dropout : option R)
    (connected : connected_fn) (normalization : layer -> layer)
    (g0 g1 : rng) (self : ProteinTransformer)
    (angles encoding projected : matrix) (g gc : rng) :
  ProteinTransformer_init in_size size distance_size mix attention_size heads
    hidden_size mlp_depth depth max_distance distance_kernels neighbours
    activation batch_norm conditional angles_flag dropout connected
    normalization g0 = Some (self, g1) ->
  (0 < mix)%nat ->
  Forall (fun r => (2 <= length r)%nat) angles ->
  shape (length angles) size encoding ->
  pt_mean self encoding g = Some (projected, gc) ->
  shape (length angles) (3 * mix) projected ->
  exists weights parameters,
    mixture_heads self angles encoding g = Some ((weights, parameters), gc)
    /\ length weights = length angles
    /\ Forall (categorical mix) weights
    /\ length parameters = mix
    /\ Forall (fun '(mean, concentration) =>
                 shape (length angles) 3 mean
                 /\ shape (length angles) 3 concentration)
              parameters.
Proof.
  intros Hinit Hmix Hrows Henc Hprojected Hproj.
  destruct (mixture_heads_returns _ _ _ _ _ _ _ _ _ _ _ _ _ _ _ _ _ _ _ _ _ _
              Hinit angles encoding projected g gc Hrows Henc Hprojected Hproj)
    as (weights & parameters & Hrun).
  exists weights, parameters. split; [exact Hrun|].
  destruct (protein_init_shapes _ _ _ _ _ _ _ _ _ _ _ _ _ _ _ _ _ _ _ _ _ _
              Hinit) as (Hm & _ & _ & _ & Hw & _).
  destruct Henc as [Hn _].
  apply mixture_heads_Some in Hrun.
  destruct Hrun as (mean & activated & logits & lc
                    & Hlen & Hrows3 & Hlc & Hact & Hlogits & -> & ->).
  apply Linear_forward_shape in Hlogits. destruct Hlogits as [Hk Hwidth].
  rewrite Hw in Hwidth. rewrite Hm.
  split; [|split; [|split]].
  - rewrite length_map. transitivity (length encoding); [exact Hk | exact Hn].
  - apply Forall_map. eapply Forall_impl; [|exact Hwidth].
    intros r Hr. cbv beta in Hr. split; [|split].
    + rewrite softmax_length. exact Hr.
    + apply softmax_nonneg.
    + apply softmax_sum. intros ->. simpl in Hr. lia.
  - rewrite length_map, length_seq. reflexivity.
  - apply Forall_map, Forall_forall. intros idx _.
    apply view3_shape in Hact. destruct Hact as [Hlen' Hshape].
    split.
    + apply slice_last_shape; [|exact Hrows3].
      transitivity (length encoding); [exact Hlen | exact Hn].
    + apply slice_last_shape.
      * rewrite !length_map. transitivity (length encoding); [exact Hlen' | exact Hn].
      * apply Forall_map. eapply Forall_impl; [|exact Hshape].
        intros m [Hlm _]. rewrite length_map. exact Hlm.
Qed.

End Mixture.

Lemma mixture_heads_mixture_witness :
  exists weights parameters,
    mixture_heads example_model [[1; 2; 3]] [[1; 1]] tt
    = Some ((weights, parameters), tt)
    /\ length weights = length [[1; 2; 3]]
    /\ Forall (categorical 2) weights
    /\ length parameters = 2%nat
    /\ Forall (fun '(mean, concentration) =>
                 shape (length [[1; 2; 3]]) 3 mean
                 /\ shape (length [[1; 2; 3]]) 3 concentration)
              parameters.
Proof.
  apply (@mixture_heads_mixture example_library
           6 2 0%Z 2 4 1 4 1 1 20 16%Z 15 tt false false false None
           example_connected (fun x => x) tt tt example_model
           [[1; 2; 3]] [[1; 1]] [[0; 0; 0; 0; 0; 0]] tt tt).
  - reflexivity.
  - lia.
  - repeat constructor.
  - split; [reflexivity | repeat constructor].
  - reflexivity.
  - split; [reflexivity | repeat constructor].
Defined.

End TransformerMore.
